(** * Society-management application: persistence layer and its callers

    A shallow embedding of [db.ts] (the IndexedDB data-access layer), of the
    parts of [App.tsx] that call it (authentication, settings, receipt and
    expense entry) and of the balance computation of [utils.ts].

    Conventions of the embedding.
    - An [async] function over the database becomes a function that takes
      the database value and returns its result together with the new
      database; a rejected promise becomes [inl] of the exception.
    - React state ([useState]) read or written by a handler is passed in and
      returned explicitly.
    - An amount is a JavaScript number that holds a whole number; the
      records keep the integer, and an integer [z] stands for the number
      [toNumber z], the IEEE 754 double nearest to it. Sums and differences
      of amounts are computed as JavaScript computes them, with the binary64
      addition and subtraction of [SpecFloat], rounding to nearest, ties to
      even; negating, taking the absolute value and comparing with zero need
      no rounding and are done on the integer.
    - Strings are sequences of bytes; [TextEncoder.encode] is then the
      identity on the byte sequence. *)

From Stdlib Require Import ZArith NArith List Ascii String Lia Permutation Sorted.
From Stdlib Require Import Decimal DecimalString DecimalNat.
From Stdlib Require Hexadecimal HexadecimalString HexadecimalN.
From Stdlib Require SpecFloat.
From Stdlib.Strings Require Import Byte.
From stdpp Require Import base option list gmap strings.

Local Open Scope string_scope.
Local Open Scope list_scope.
Local Open Scope stdpp_scope.
Local Open Scope Z_scope.

(** ** JavaScript numbers *)

(** The [number] type: IEEE 754 binary64, 53 bits of precision and
    exponents below 1024. *)
Definition number : Type := SpecFloat.spec_float.

(** The number a whole-number literal or a parsed whole-number input
    denotes: the double nearest to [z]. *)
Definition toNumber (z : Z) : number :=
  SpecFloat.binary_normalize 53 1024 z 0 false.

(** [x + y] and [x - y] on numbers. *)
Definition numberAdd (x y : number) : number := SpecFloat.SFadd 53 1024 x y.


(** ** Data model ([types.ts], as used by the three source files) *)

Inductive PaymentMethod := Cash | Cheque | Online.

Inductive SignatureType := typed | drawn | uploaded.

(** [Receipt]: a record as stored, the primary key under [id]. *)
Module Receipt.
Record t := mk {
  id : Z;
  receiptNumber : string;
  name : string;
  blockNumber : string;
  amount : Z;
  date : string;
  forMonth : string;
  paymentMethod : PaymentMethod }.
End Receipt.

(** [Omit<Receipt, 'id'>]: what [addReceipt] is given. *)
Module NewReceipt.
Record t := mk {
  receiptNumber : string;
  name : string;
  blockNumber : string;
  amount : Z;
  date : string;
  forMonth : string;
  paymentMethod : PaymentMethod }.
End NewReceipt.

(** [ReceiptFormData = Omit<Receipt, 'id' | 'receiptNumber'>]. *)
Module ReceiptFormData.
Record t := mk {
  name : string;
  blockNumber : string;
  amount : Z;
  date : string;
  forMonth : string;
  paymentMethod : PaymentMethod }.
End ReceiptFormData.

Module Expense.
Record t := mk {
  id : Z;
  date : string;
  description : string;
  amount : Z }.
End Expense.

(** [Omit<Expense, 'id'>]: the expense form's data and [addExpense]'s
    argument. *)
Module NewExpense.
Record t := mk {
  date : string;
  description : string;
  amount : Z }.
End NewExpense.

Module Settings.
Record t := mk {
  id : Z;
  adminName : string;
  blockNumber : string;
  signatureType : SignatureType;
  typedSignature : string;
  drawnSignature : string;
  uploadedSignature : string }.
End Settings.

(** The object handed to [saveSettings]. Its static type is
    [Omit<Settings, 'id'>], but the upload handler passes a spread of a
    full [Settings], so at run time an [id] property may be present. *)
Module SettingsArg.
Record t := mk {
  id : option Z;
  adminName : string;
  blockNumber : string;
  signatureType : SignatureType;
  typedSignature : string;
  drawnSignature : string;
  uploadedSignature : string }.
End SettingsArg.

Module Credential.
Record t := mk {
  username : string;
  passwordHash : string }.
End Credential.

#[global] Instance PaymentMethod_eq_dec : EqDecision PaymentMethod.
Proof. solve_decision. Defined.
#[global] Instance SignatureType_eq_dec : EqDecision SignatureType.
Proof. solve_decision. Defined.

(** ** The database ([db.ts])

    [upgrade] creates four object stores: [receipts] and [expenses] with
    [keyPath: 'id'] and a key generator ([autoIncrement]), [receipts] with
    a unique index on [receiptNumber]; [settings] keyed by [id] and [auth]
    keyed by [username], both without a key generator. *)

(** An object store with a key generator: its records in ascending key
    order (the order [getAll] returns) and the generator's current
    number. *)
Record AutoStore (V : Type) := mkAutoStore {
  records : list V;
  keygen : Z }.
Arguments mkAutoStore {V} _ _.
Arguments records {V} _.
Arguments keygen {V} _.

Record DB := mkDB {
  receipts : AutoStore Receipt.t;
  expenses : AutoStore Expense.t;
  settings : gmap Z Settings.t;
  auth : gmap string Credential.t }.

(** The database right after [upgrade] ran on a device without one: every
    store exists and is empty, every key generator is at 1. *)
Definition emptyDB : DB :=
  mkDB (mkAutoStore [] 1) (mkAutoStore [] 1) ∅ ∅.

(** Exceptions a store operation of this layer can raise. A request that
    fails aborts its transaction, which reverts every change the
    transaction made, the key generator included: the database is left as
    it was. *)
Inductive DOMException := ConstraintViolation.

Definition Result (A : Type) : Type := DOMException + A.

(** *** Auth functions *)

Definition getAuthCredentials (username : string) (db : DB) : option Credential.t :=
  auth db !! username.

(** [db.put('auth', { username, passwordHash })]: insert or replace under
    the key found at the key path [username]; resolves to that key. *)
Definition saveAuthCredentials (username passwordHash : string) (db : DB) : string * DB :=
  let value := Credential.mk username passwordHash in
  (Credential.username value,
   mkDB (receipts db) (expenses db) (settings db)
        (<[Credential.username value := value]> (auth db))).

(** *** Receipt functions *)

Definition getAllReceipts (db : DB) : list Receipt.t :=
  records (receipts db).

Definition withId (key : Z) (r : NewReceipt.t) : Receipt.t :=
  Receipt.mk key (NewReceipt.receiptNumber r) (NewReceipt.name r)
    (NewReceipt.blockNumber r) (NewReceipt.amount r) (NewReceipt.date r)
    (NewReceipt.forMonth r) (NewReceipt.paymentMethod r).

(** The unique index on [receiptNumber]: does a stored record already carry
    this value? *)
Definition indexContains (rn : string) (rs : list Receipt.t) : bool :=
  existsb (fun r => String.eqb (Receipt.receiptNumber r) rn) rs.

(** [db.add('receipts', receipt)]: the record has no [id], so the key
    generator supplies the key and the key is written at the key path; the
    unique index rejects a [receiptNumber] that is already stored. *)
Definition addReceipt (receipt : NewReceipt.t) (db : DB) : Result (Z * DB) :=
  let store := receipts db in
  let key := keygen store in
  if indexContains (NewReceipt.receiptNumber receipt) (records store)
  then inl ConstraintViolation
  else inr (key,
            mkDB (mkAutoStore (records store ++ [withId key receipt]) (key + 1))
                 (expenses db) (settings db) (auth db)).

Definition getReceipt (id : Z) (db : DB) : option Receipt.t :=
  find (fun r => Z.eqb (Receipt.id r) id) (records (receipts db)).

(** *** Expense functions *)

Definition getAllExpenses (db : DB) : list Expense.t :=
  records (expenses db).

Definition addExpense (expense : NewExpense.t) (db : DB) : Z * DB :=
  let store := expenses db in
  let key := keygen store in
  (key,
   mkDB (receipts db)
        (mkAutoStore
           (records store ++
              [Expense.mk key (NewExpense.date expense)
                 (NewExpense.description expense) (NewExpense.amount expense)])
           (key + 1))
        (settings db) (auth db)).

(** *** Settings functions *)

(** Settings are stored with a fixed key. *)
Definition getSettings (db : DB) : option Settings.t :=
  settings db !! 1.

(** [db.put('settings', { ...settings, id: 1 })]: whatever [id] the
    argument carries is replaced by 1, and the record is inserted or
    replaced under the key found at the key path [id]. *)
Definition saveSettings (s : SettingsArg.t) (db : DB) : Z * DB :=
  let value :=
    Settings.mk 1 (SettingsArg.adminName s) (SettingsArg.blockNumber s)
      (SettingsArg.signatureType s) (SettingsArg.typedSignature s)
      (SettingsArg.drawnSignature s) (SettingsArg.uploadedSignature s) in
  (Settings.id value,
   mkDB (receipts db) (expenses db)
        (<[Settings.id value := value]> (settings db)) (auth db)).

(** ** JavaScript string primitives used by the application *)

(** [String(n)] for a non-negative integer: its decimal digits. *)
Definition String_ofNumber (n : nat) : string :=
  NilEmpty.string_of_uint (Nat.to_uint n).

(** [n.toString(16)]: lower-case hexadecimal digits, no leading zero. *)
Definition toString16 (n : N) : string :=
  HexadecimalString.NilEmpty.string_of_uint (N.to_hex_uint n).

(** [s.padStart(targetLength, padString)]: [s] itself when it is long
    enough or the pad is empty, otherwise the pad repeated and truncated to
    the missing length, then [s]. *)
Definition padStart (targetLength : nat) (padString s : string) : string :=
  let len := String.length s in
  if (targetLength <=? len)%nat || String.eqb padString "" then s
  else
    let fillLen := (targetLength - len)%nat in
    substring 0 fillLen (String.concat "" (repeat padString fillLen)) +:+ s.

(** [a || ''] on an optional string ([undefined] when the object before
    [?.] is [null]): the empty string is falsy. *)
Definition orEmpty (a : option string) : string :=
  match a with
  | Some s => if String.eqb s "" then "" else s
  | None => ""
  end.

(** ** [NewReceiptPage] *)

(** The effect run when the page mounts: the number of stored receipts. *)
Definition NewReceiptPage_fetchLastReceipt (db : DB) : nat :=
  length (getAllReceipts db).

Definition NewReceiptPage_receiptNumber (receiptCount : nat) : string :=
  "NSM-" +:+ padStart 4 "0" (String_ofNumber (receiptCount + 1)).

(** [onSubmit], with the [receiptCount] state of the render it closes
    over. It resolves to the key [addReceipt] assigned (the source drops
    it) and rejects when [addReceipt] does. *)
Definition NewReceiptPage_onSubmit (receiptCount : nat) (data : ReceiptFormData.t)
    (db : DB) : Result (Z * DB) :=
  let newReceipt :=
    NewReceipt.mk (NewReceiptPage_receiptNumber receiptCount)
      (ReceiptFormData.name data) (ReceiptFormData.blockNumber data)
      (ReceiptFormData.amount data) (ReceiptFormData.date data)
      (ReceiptFormData.forMonth data) (ReceiptFormData.paymentMethod data) in
  addReceipt newReceipt db.

(** One receipt creation by a single user: the page mounts and reads the
    count, then the form is submitted. *)
Definition createReceipt (data : ReceiptFormData.t) (db : DB) : Result (Z * DB) :=
  NewReceiptPage_onSubmit (NewReceiptPage_fetchLastReceipt db) data db.

(** ** [ExpensesPage] and the expense report of [utils.ts] *)

Inductive Mode := add | subtract.

(** [onSubmit] up to the write: the sign of the stored amount is the
    mode. *)
Definition ExpensesPage_onSubmit (mode : Mode) (data : NewExpense.t) (db : DB) : Z * DB :=
  let amount :=
    match mode with
    | add => NewExpense.amount data
    | subtract => - NewExpense.amount data
    end in
  addExpense (NewExpense.mk (NewExpense.date data) (NewExpense.description data) amount) db.

Section ExpensesPage.
(** [new Date(s).getTime()], a platform function. *)
Variable getTime : string -> Z.

(** [(a, b) => new Date(b.date).getTime() - new Date(a.date).getTime()] *)
Definition byDateDesc (a b : Expense.t) : Z :=
  getTime (Expense.date b) - getTime (Expense.date a).

(** [Array.prototype.sort] with a comparator: a stable sort. *)
Fixpoint insertSorted (cmp : Expense.t -> Expense.t -> Z) (x : Expense.t)
    (l : list Expense.t) : list Expense.t :=
  match l with
  | [] => [x]
  | y :: l' => if cmp x y <=? 0 then x :: l else y :: insertSorted cmp x l'
  end.

Definition sort (cmp : Expense.t -> Expense.t -> Z) (l : list Expense.t) : list Expense.t :=
  foldr (insertSorted cmp) [] l.

(** [loadExpenses]: the value given to [setExpenses]. *)
Definition ExpensesPage_loadExpenses (db : DB) : list Expense.t :=
  sort byDateDesc (getAllExpenses db).
End ExpensesPage.


(** [exportExpensesToPdf]: the three summary figures. *)
Definition totalIncome (expenses : list Expense.t) : number :=
  fold_left (fun sum e => numberAdd sum (toNumber (Expense.amount e)))
    (List.filter (fun e => 0 <? Expense.amount e) expenses) (toNumber 0).

Definition totalExpense (expenses : list Expense.t) : number :=
  fold_left (fun sum e => numberAdd sum (toNumber (Z.abs (Expense.amount e))))
    (List.filter (fun e => Expense.amount e <? 0) expenses) (toNumber 0).


(** ** [SettingsProvider] and [SettingsPage] *)

Definition defaultSettings : SettingsArg.t :=
  SettingsArg.mk None "Admin" "Society Office" typed "For Neelkanth Society" "" "".

(** [loadSettings]: the value given to [setSettings], and the database. *)
Definition SettingsProvider_loadSettings (db : DB) : Settings.t * DB :=
  match getSettings db with
  | Some currentSettings => (currentSettings, db)
  | None =>
      let db' := snd (saveSettings defaultSettings db) in
      (Settings.mk 1 (SettingsArg.adminName defaultSettings)
         (SettingsArg.blockNumber defaultSettings)
         (SettingsArg.signatureType defaultSettings)
         (SettingsArg.typedSignature defaultSettings)
         (SettingsArg.drawnSignature defaultSettings)
         (SettingsArg.uploadedSignature defaultSettings),
       db')
  end.

(** The fields the settings form registers or sets: what [handleSubmit]
    passes as [data]. *)
Record SettingsFormData := mkSettingsFormData {
  form_adminName : string;
  form_blockNumber : string;
  form_signatureType : SignatureType;
  form_typedSignature : string }.

(** The signature pad behind [sigPad.current]. *)
Record SignatureCanvas := mkSignatureCanvas {
  isEmpty : bool;
  toDataURL : string }.

(** [onSubmit] of the settings form. [sigPad] is [sigPad.current],
    [settings] the context's cached record. Returns the record
    [loadSettings] then caches, and the database. *)
Definition SettingsPage_onSubmit (data : SettingsFormData)
    (sigPad : option SignatureCanvas) (settings : option Settings.t) (db : DB)
    : Settings.t * DB :=
  let drawnSignature :=
    match sigPad with
    | Some pad =>
        if negb (isEmpty pad) then toDataURL pad
        else orEmpty (Settings.drawnSignature <$> settings)
    | None => orEmpty (Settings.drawnSignature <$> settings)
    end in
  let settingsToSave :=
    SettingsArg.mk None (form_adminName data) (form_blockNumber data)
      (form_signatureType data) (form_typedSignature data)
      drawnSignature (orEmpty (Settings.uploadedSignature <$> settings)) in
  SettingsProvider_loadSettings (snd (saveSettings settingsToSave db)).

(** [handleFileUpload], once the file is read: nothing happens without a
    cached record. *)
Definition SettingsPage_handleFileUpload (uploadedSignature : string)
    (settings : option Settings.t) (db : DB) : option Settings.t * DB :=
  match settings with
  | Some s =>
      let settingsToSave :=
        SettingsArg.mk (Some (Settings.id s)) (Settings.adminName s)
          (Settings.blockNumber s) (Settings.signatureType s)
          (Settings.typedSignature s) (Settings.drawnSignature s)
          uploadedSignature in
      let '(s', db') := SettingsProvider_loadSettings (snd (saveSettings settingsToSave db)) in
      (Some s', db')
  | None => (None, db)
  end.

(** ** Hashing, [AuthProvider] and [ChangePasswordForm] *)

(** What [AuthProvider] holds: the React state [isAuthenticated] and the
    browser's [sessionStorage]. *)
Record AuthState := mkAuthState {
  isAuthenticated : bool;
  sessionStorage : gmap string string }.

Inductive MessageType := success | error.

(** The [message] state of [ChangePasswordForm]; [None] is [null]. *)
Record Message := mkMessage {
  type : MessageType;
  text : string }.

(** The change-password form's data. *)
Record PasswordFormData := mkPasswordFormData {
  currentPassword : string;
  newPassword : string;
  confirmNewPassword : string }.

Section Auth.
(** [crypto.subtle.digest('SHA-256', _)], a platform primitive: from
    bytes to bytes. *)
Variable digest : list byte -> list byte.

(** [sha256]: encode, digest, then two lower-case hexadecimal digits per
    byte. *)
Definition sha256 (message : string) : string :=
  let msgBuffer := list_byte_of_string message in
  let hashBuffer := digest msgBuffer in
  let hashArray := hashBuffer in
  String.concat ""
    (map (fun b => padStart 2 "0" (toString16 (Byte.to_N b))) hashArray).

(** [checkAuth], the effect [AuthProvider] runs when it mounts. *)
Definition AuthProvider_checkAuth (st : AuthState) (db : DB) : AuthState * DB :=
  let storedAuth := sessionStorage st !! "isAuthenticated" in
  let st' :=
    if decide (storedAuth = Some "true")
    then mkAuthState true (sessionStorage st)
    else st in
  match getAuthCredentials "admin" db with
  | Some _ => (st', db)
  | None =>
      let defaultPasswordHash := sha256 "google" in
      (st', snd (saveAuthCredentials "admin" defaultPasswordHash db))
  end.

(** [login]: the boolean it resolves to and the provider's new state. *)
Definition AuthProvider_login (user pass : string) (st : AuthState) (db : DB)
    : bool * AuthState :=
  if String.eqb user "admin" then
    match getAuthCredentials "admin" db with
    | Some credentials =>
        let passHash := sha256 pass in
        if String.eqb passHash (Credential.passwordHash credentials) then
          (true, mkAuthState true (<["isAuthenticated" := "true"]> (sessionStorage st)))
        else (false, st)
    | None => (false, st)
    end
  else (false, st).

(** [ChangePasswordForm]'s [onSubmit]: the [message] state it leaves and
    the database. [setMessage(null)] comes first, so [None] is what stays
    when no later [setMessage] runs. *)
Definition ChangePasswordForm_onSubmit (data : PasswordFormData) (db : DB)
    : option Message * DB :=
  match getAuthCredentials "admin" db with
  | Some credentials =>
      let currentPassHash := sha256 (currentPassword data) in
      if negb (String.eqb currentPassHash (Credential.passwordHash credentials)) then
        (Some (mkMessage error "Current password is not correct."), db)
      else
        let newPassHash := sha256 (newPassword data) in
        (Some (mkMessage success "Password updated successfully!"),
         snd (saveAuthCredentials "admin" newPassHash db))
  | None => (None, db)
  end.
End Auth.

(** ** Histories of the database

    Every write this layer offers, as an operation; a database is
    [reachable] when some sequence of them leads to it from the empty
    one. A rejected [addReceipt] leaves the database as it was. *)
Inductive Op :=
  | OpSaveAuthCredentials (username passwordHash : string)
  | OpAddReceipt (receipt : NewReceipt.t)
  | OpAddExpense (expense : NewExpense.t)
  | OpSaveSettings (s : SettingsArg.t).

Definition step (db : DB) (op : Op) : DB :=
  match op with
  | OpSaveAuthCredentials u h => snd (saveAuthCredentials u h db)
  | OpAddReceipt r =>
      match addReceipt r db with
      | inr (_, db') => db'
      | inl _ => db
      end
  | OpAddExpense e => snd (addExpense e db)
  | OpSaveSettings s => snd (saveSettings s db)
  end.

Definition run (ops : list Op) (db : DB) : DB := fold_left step ops db.

Definition reachable (db : DB) : Prop := exists ops, db = run ops emptyDB.

(** ** Vocabulary of the statements *)

(** The number a string of decimal digits denotes, leading zeros allowed. *)
Definition decimalValue (s : string) : option nat :=
  Nat.of_uint <$> NilEmpty.uint_of_string s.

(** Receipts created one after the other through the page. *)
Definition createAll (datas : list ReceiptFormData.t) (db : DB) : DB :=
  fold_left
    (fun db data =>
       match createReceipt data db with
       | inr (_, db') => db'
       | inl _ => db
       end)
    datas db.

(** A store whose receipts carry the numbers of the sequence 1, 2, ... in
    order, the key generator one ahead of the count. *)
Definition numbered (db : DB) : Prop :=
  keygen (receipts db) = Z.of_nat (length (getAllReceipts db)) + 1 /\
  map Receipt.receiptNumber (getAllReceipts db) =
    map NewReceiptPage_receiptNumber (seq 0 (length (getAllReceipts db))).

Definition receiptOf (key : Z) (count : nat) (data : ReceiptFormData.t) : Receipt.t :=
  Receipt.mk key (NewReceiptPage_receiptNumber count)
    (ReceiptFormData.name data) (ReceiptFormData.blockNumber data)
    (ReceiptFormData.amount data) (ReceiptFormData.date data)
    (ReceiptFormData.forMonth data) (ReceiptFormData.paymentMethod data).

Definition scenarioData : ReceiptFormData.t :=
  ReceiptFormData.mk "A" "12" 500 "2024-01-01" "2024-01" Cash.

(** No two stored receipts share a receipt number. *)
Definition uniqueReceiptNumbers (db : DB) : Prop :=
  List.NoDup (map Receipt.receiptNumber (getAllReceipts db)).

(** Storing two receipts one after the other: the two outcomes. *)
Definition addTwo (r1 r2 : NewReceipt.t) (db : DB)
    : Result (Z * DB) * Result (Z * DB) :=
  let first := addReceipt r1 db in
  let db1 := match first with inr (_, db') => db' | inl _ => db end in
  (first, addReceipt r2 db1).

Definition isSuccess {A : Type} (o : Result A) : bool :=
  match o with inr _ => true | inl _ => false end.

Definition isViolation {A : Type} (o : Result A) : bool :=
  match o with inl ConstraintViolation => true | inr _ => false end.

(** Exactly one of the two outcomes is a success and the other one a
    [ConstraintViolation]. *)
Definition exactlyOneSuccess {A : Type} (o : Result A * Result A) : Prop :=
  (isSuccess (fst o) = true /\ isViolation (snd o) = true) \/
  (isViolation (fst o) = true /\ isSuccess (snd o) = true).

Definition receiptNSM1 : NewReceipt.t :=
  NewReceipt.mk "NSM-0001" "A" "12" 500 "2024-01-01" "2024-01" Cash.

(** A store that already holds receipt "NSM-0001". *)
Definition storeWithNSM1 : DB := step emptyDB (OpAddReceipt receiptNSM1).

(** A digest to run the examples with: the bytes themselves. *)
Definition plainDigest (bytes : list byte) : list byte := bytes.

Definition noSession : AuthState := mkAuthState false ∅.

(** The database after the first start on a device without one. *)
Definition seededDB : DB := snd (AuthProvider_checkAuth plainDigest noSession emptyDB).

(** Did [ChangePasswordForm]'s [onSubmit] report the update? *)
Definition passwordUpdated (m : option Message) : bool :=
  match m with
  | Some (mkMessage success _) => true
  | _ => false
  end.

(** The report of a wrong current password. *)
Definition WrongCurrentPassword : Message :=
  mkMessage error "Current password is not correct.".

(** The sum of the stored amounts. *)
Definition sumAmounts (expenses : list Expense.t) : Z :=
  foldr Z.add 0 (map Expense.amount expenses).

(** [Number.MAX_SAFE_INTEGER], 2^53 - 1: up to it every whole number is a
    double. *)
Definition MAX_SAFE_INTEGER : Z := 2 ^ 53 - 1.

(** The sum of the magnitudes of the stored amounts: no partial sum, in
    whatever order, exceeds it. *)
Definition sumMagnitudes (expenses : list Expense.t) : Z :=
  foldr Z.add 0 (map (fun e => Z.abs (Expense.amount e)) expenses).

(** The incomes and the outlays of a list, summed exactly. *)
Definition sumIncomes (expenses : list Expense.t) : Z :=
  foldr Z.add 0
    (map Expense.amount (List.filter (fun e => 0 <? Expense.amount e) expenses)).

Definition sumOutlays (expenses : list Expense.t) : Z :=
  foldr Z.add 0
    (map (fun e => Z.abs (Expense.amount e))
       (List.filter (fun e => Expense.amount e <? 0) expenses)).

(** The mantissa [m] shifted left by [k] bits. *)
Definition shiftPos (m : positive) (k : Z) : positive :=
  match k with
  | Zpos n => Pos.iter xO m n
  | _ => m
  end.

(** The double of a whole number of magnitude [m] below 2^53: the
    mantissa is [m] shifted to 53 bits. *)
Definition canonical (s : bool) (m : positive) : number :=
  SpecFloat.S754_finite s
    (shiftPos m (53 - Zpos (SpecFloat.digits2_pos m)))
    (Zpos (SpecFloat.digits2_pos m) - 53).

Definition signedValue (s : bool) (m : positive) : Z :=
  SpecFloat.cond_Zopp s (Zpos m).




(** The amount that the sign convention asks to store. *)
Definition signedAmount (mode : Mode) (entered : Z) : Z :=
  match mode with
  | add => entered
  | subtract => - entered
  end.

(** The hard-coded default settings record, as stored. *)
Definition storedDefaultSettings : Settings.t :=
  Settings.mk 1 "Admin" "Society Office" typed "For Neelkanth Society" "" "".

(** The settings store holds nothing, or one record, under key 1 and with
    [id] 1. *)
Definition settingsSingleton (db : DB) : Prop :=
  settings db = ∅ \/
  exists r, settings db = {[ 1 := r ]} /\ Settings.id r = 1.

(** ** Further parts of the application *)

(** *** Keys of the stores *)

(** The keys of the stored receipts ascend in the order [getAll] returns
    them, start at 1 and stay below the key generator. *)
Definition receiptKeysOrdered (db : DB) : Prop :=
  StronglySorted Z.lt (map Receipt.id (getAllReceipts db)) /\
  Forall (fun key => 1 <= key < keygen (receipts db)) (map Receipt.id (getAllReceipts db)) /\
  1 <= keygen (receipts db).

(** The keys of the stored expenses are 1, 2, ... in order, the key
    generator one ahead. *)
Definition expenseKeysSequential (db : DB) : Prop :=
  map Expense.id (getAllExpenses db) =
    map Z.of_nat (seq 1 (length (getAllExpenses db))) /\
  keygen (expenses db) = Z.of_nat (length (getAllExpenses db)) + 1.

(** Every credential is stored under its own user name. *)
Definition authKeyedByUsername (db : DB) : Prop :=
  forall (u : string) (c : Credential.t),
    auth db !! u = Some c -> Credential.username c = u.

(** A database with two receipts, an expense, settings and a credential. *)
Definition sampleDB : DB :=
  run [OpAddReceipt (NewReceipt.mk "NSM-0001" "A" "12" 500 "2024-01-01" "2024-01" Cash);
       OpAddReceipt (NewReceipt.mk "NSM-0001" "B" "14" 700 "2024-01-02" "2024-01" Online);
       OpAddReceipt (NewReceipt.mk "NSM-0002" "B" "14" 700 "2024-01-02" "2024-01" Online);
       OpAddExpense (NewExpense.mk "2024-01-05" "Paint" (-300));
       OpSaveSettings defaultSettings;
       OpSaveAuthCredentials "admin" "676f6f676c65"]
    emptyDB.

(** *** [AuthProvider.logout], [ProtectedRoute] and [LoginPage] *)

(** [logout]. *)
Definition AuthProvider_logout (st : AuthState) : AuthState :=
  mkAuthState false (delete "isAuthenticated" (sessionStorage st)).

(** Reloading the page in the same tab: the React state starts again from
    [useState(false)], [sessionStorage] stays. *)
Definition reloadAuth (st : AuthState) : AuthState :=
  mkAuthState false (sessionStorage st).

(** What [ProtectedRoute] renders. *)
Inductive Rendered :=
  | Children
  | Navigate (to : string).

Definition ProtectedRoute (st : AuthState) : Rendered :=
  if negb (isAuthenticated st) then Navigate "/login" else Children.

(** What [handleLogin] leaves: the [error] state, the route it navigated
    to if any, and the provider's state. *)
Record LoginOutcome := mkLoginOutcome {
  loginError : string;
  navigated : option string;
  loginState : AuthState }.

Definition LoginPage_handleLogin (digest : list byte -> list byte)
    (username password : string) (st : AuthState) (db : DB) : LoginOutcome :=
  let result := AuthProvider_login digest username password st db in
  if fst result
  then mkLoginOutcome "" (Some "/") (snd result)
  else mkLoginOutcome "Invalid credentials" None (snd result).

(** *** Reading a digest back *)

(** The value of a lower-case hexadecimal digit. *)
Definition hexDigitValue (c : ascii) : option N :=
  let n := N_of_ascii c in
  if ((48 <=? n) && (n <=? 57))%N then Some (n - 48)%N
  else if ((97 <=? n) && (n <=? 102))%N then Some (n - 87)%N
  else None.

(** The bytes a string of hexadecimal digit pairs denotes. *)
Fixpoint parseHex (s : string) : option (list byte) :=
  match s with
  | "" => Some []
  | String c1 (String c2 rest) =>
      match hexDigitValue c1, hexDigitValue c2, parseHex rest with
      | Some high, Some low, Some bytes =>
          match Byte.of_N (16 * high + low) with
          | Some b => Some (b :: bytes)
          | None => None
          end
      | _, _, _ => None
      end
  | String _ "" => None
  end.

(** *** [DashboardPage] and [ReceiptsListPage] *)

(** [receipts.reduce((sum, receipt) => sum + receipt.amount, 0)]: the
    total the dashboard shows, next to [receipts.length]. *)
Definition DashboardPage_totalAmount (receipts : list Receipt.t) : number :=
  fold_left (fun sum receipt => numberAdd sum (toNumber (Receipt.amount receipt)))
    receipts (toNumber 0).

(** [Array.prototype.sort] on receipts, as for the expenses. *)
Fixpoint insertReceipt (cmp : Receipt.t -> Receipt.t -> Z) (x : Receipt.t)
    (l : list Receipt.t) : list Receipt.t :=
  match l with
  | [] => [x]
  | y :: l' => if cmp x y <=? 0 then x :: l else y :: insertReceipt cmp x l'
  end.

Definition sortReceipts (cmp : Receipt.t -> Receipt.t -> Z) (l : list Receipt.t)
    : list Receipt.t :=
  foldr (insertReceipt cmp) [] l.

(** [loadReceipts]: the value given to [setReceipts], sorted by
    [(a, b) => b.id - a.id]. *)
Definition ReceiptsListPage_loadReceipts (db : DB) : list Receipt.t :=
  sortReceipts (fun a b => Receipt.id b - Receipt.id a) (getAllReceipts db).

(** [s.includes(searchString)]: [searchString] occurs somewhere in [s]. *)
Fixpoint includes (s searchString : string) : bool :=
  String.prefix searchString s ||
  match s with
  | "" => false
  | String _ s' => includes s' searchString
  end.

Section ReceiptsListPage.
(** [String.prototype.toLowerCase], a platform function. *)
Variable toLowerCase : string -> string.

(** The predicate of [receipts.filter(...)]. *)
Definition matchesSearch (searchTerm : string) (r : Receipt.t) : bool :=
  includes (toLowerCase (Receipt.name r)) (toLowerCase searchTerm) ||
  includes (toLowerCase (Receipt.receiptNumber r)) (toLowerCase searchTerm) ||
  includes (toLowerCase (Receipt.blockNumber r)) (toLowerCase searchTerm).

Definition ReceiptsListPage_filteredReceipts (receipts : list Receipt.t)
    (searchTerm : string) : list Receipt.t :=
  List.filter (matchesSearch searchTerm) receipts.
End ReceiptsListPage.

(** [filteredReceipts.reduce((sum, r) => sum + r.amount, 0)]: the footer
    of the list, and the [grandTotal] of both exports. *)
Definition ReceiptsListPage_totalAmount (filteredReceipts : list Receipt.t) : number :=
  fold_left (fun sum r => numberAdd sum (toNumber (Receipt.amount r)))
    filteredReceipts (toNumber 0).

(** The amounts of a list of receipts and their magnitudes, summed
    exactly. *)
Definition sumReceiptAmounts (receipts : list Receipt.t) : Z :=
  foldr Z.add 0 (map Receipt.amount receipts).

Definition sumReceiptMagnitudes (receipts : list Receipt.t) : Z :=
  foldr Z.add 0 (map (fun r => Z.abs (Receipt.amount r)) receipts).

(** A lower-casing of the letters A to Z, to run the examples with. *)
Definition asciiLowerCase (s : string) : string :=
  string_of_list_ascii
    (map (fun c =>
            let n := N_of_ascii c in
            if ((65 <=? n) && (n <=? 90))%N then ascii_of_N (n + 32) else c)
       (list_ascii_of_string s)).

(** [searchString] occurs in [s]: some text before, then it, then some
    text after. *)
Definition occursIn (searchString s : string) : Prop :=
  exists before after, s = before +:+ searchString +:+ after.

(** *** The application as a whole

    The providers' state, the cached settings and the database, and the
    things a user can do. Pages behind [ProtectedRoute] are rendered, and
    their handlers can run, only in an authenticated session; the settings
    page renders its forms, the change-password form among them, only once
    the settings are cached. *)
Record App := mkApp {
  authState : AuthState;
  settingsCache : option Settings.t;
  appDB : DB }.

Inductive Event :=
  | EvReload
  | EvLogin (username password : string)
  | EvLogout
  | EvChangePassword (data : PasswordFormData)
  | EvCreateReceipt (data : ReceiptFormData.t)
  | EvSubmitExpense (mode : Mode) (data : NewExpense.t)
  | EvSubmitSettings (data : SettingsFormData) (sigPad : option SignatureCanvas)
  | EvUploadSignature (uploadedSignature : string).

(** Loading the page: the React state starts afresh, then the providers'
    effects run, [checkAuth] and [loadSettings]. *)
Definition loadPage (digest : list byte -> list byte) (app : App) : App :=
  let checked := AuthProvider_checkAuth digest (reloadAuth (authState app)) (appDB app) in
  let loaded := SettingsProvider_loadSettings (snd checked) in
  mkApp (fst checked) (Some (fst loaded)) (snd loaded).

(** A handler of a protected page: it runs only when [ProtectedRoute]
    renders its children. *)
Definition protected (app : App) (run : App) : App :=
  match ProtectedRoute (authState app) with
  | Children => run
  | Navigate _ => app
  end.

Definition handle (digest : list byte -> list byte) (app : App) (ev : Event) : App :=
  match ev with
  | EvReload => loadPage digest app
  | EvLogin username password =>
      mkApp (loginState (LoginPage_handleLogin digest username password (authState app) (appDB app)))
        (settingsCache app) (appDB app)
  | EvLogout => mkApp (AuthProvider_logout (authState app)) (settingsCache app) (appDB app)
  | EvChangePassword data =>
      protected app
        (match settingsCache app with
         | Some _ =>
             mkApp (authState app) (settingsCache app)
               (snd (ChangePasswordForm_onSubmit digest data (appDB app)))
         | None => app
         end)
  | EvCreateReceipt data =>
      protected app
        (match createReceipt data (appDB app) with
         | inr (_, db') => mkApp (authState app) (settingsCache app) db'
         | inl _ => app
         end)
  | EvSubmitExpense mode data =>
      protected app
        (mkApp (authState app) (settingsCache app)
           (snd (ExpensesPage_onSubmit mode data (appDB app))))
  | EvSubmitSettings data sigPad =>
      protected app
        (match settingsCache app with
         | Some _ =>
             let saved := SettingsPage_onSubmit data sigPad (settingsCache app) (appDB app) in
             mkApp (authState app) (Some (fst saved)) (snd saved)
         | None => app
         end)
  | EvUploadSignature uploadedSignature =>
      protected app
        (match settingsCache app with
         | Some _ =>
             let saved :=
               SettingsPage_handleFileUpload uploadedSignature (settingsCache app) (appDB app) in
             mkApp (authState app) (fst saved) (snd saved)
         | None => app
         end)
  end.

(** The application on a device that never ran it, once the page has
    loaded. *)
Definition firstStart (digest : list byte -> list byte) : App :=
  loadPage digest (mkApp noSession None emptyDB).

Definition appReachable (digest : list byte -> list byte) (app : App) : Prop :=
  exists events, app = fold_left (handle digest) events (firstStart digest).

(** What holds of the database and the cache all along: the receipts are
    numbered, exactly one credential is stored, for "admin", and exactly
    one settings record, which is the cached one. *)
Definition appInvariant (app : App) : Prop :=
  numbered (appDB app) /\
  (exists hash, auth (appDB app) = {[ "admin" := Credential.mk "admin" hash ]}) /\
  (exists s, settings (appDB app) = {[ 1 := s ]} /\ Settings.id s = 1 /\
             settingsCache app = Some s).

(** No login attempt among the events succeeds against this database. *)
Definition noLoginSucceeds (digest : list byte -> list byte) (db : DB)
    (events : list Event) : Prop :=
  forall username password,
    In (EvLogin username password) events ->
    fst (AuthProvider_login digest username password noSession db) = false.

(** *** [ThemeProvider] *)

Module Theme.
Inductive t := default | ocean | forest | sunset.
End Theme.

(** The string a [Theme] is at run time. *)
Definition themeName (theme : Theme.t) : string :=
  match theme with
  | Theme.default => "default"
  | Theme.ocean => "ocean"
  | Theme.forest => "forest"
  | Theme.sunset => "sunset"
  end.

(** The [theme] state and the browser's [localStorage]. The state is a
    string: what [localStorage] returns is cast to [Theme] unchecked. *)
Record ThemeState := mkThemeState {
  theme : string;
  localStorage : gmap string string }.

(** [useState<Theme>('default')] on a page load. *)
Definition ThemeProvider_initial (storage : gmap string string) : ThemeState :=
  mkThemeState "default" storage.

(** The effect run when the provider mounts: a saved theme that is not
    the empty string replaces the state. *)
Definition ThemeProvider_mount (st : ThemeState) : ThemeState :=
  match localStorage st !! "app-theme" with
  | Some savedTheme =>
      if String.eqb savedTheme "" then st else mkThemeState savedTheme (localStorage st)
  | None => st
  end.

Definition ThemeProvider_setTheme (newTheme : Theme.t) (st : ThemeState) : ThemeState :=
  mkThemeState (themeName newTheme) (<["app-theme" := themeName newTheme]> (localStorage st)).

(** The class name the second effect gives the document. *)
Definition ThemeProvider_className (st : ThemeState) : string :=
  if String.eqb (theme st) "default" then "" else "theme-" +:+ theme st.

(** *** Opening the database: [getDB] *)

Definition DB_VERSION : Z := 1.

(** The receipts store as the browser holds it: its records and key
    generator, and whether its [receiptNumber] index is unique. *)
Record RawReceiptStore := mkRawReceiptStore {
  rawReceipts : AutoStore Receipt.t;
  receiptNumberUnique : bool }.

(** The database as the browser holds it: its version (0 when it does
    not exist) and the object stores that exist. *)
Record RawDB := mkRawDB {
  rawVersion : Z;
  storeReceipts : option RawReceiptStore;
  storeExpenses : option (AutoStore Expense.t);
  storeSettings : option (gmap Z Settings.t);
  storeAuth : option (gmap string Credential.t) }.

(** The [upgrade] callback: each store is created, empty, unless a store
    of that name exists. *)
Definition upgrade (raw : RawDB) : RawDB :=
  mkRawDB (rawVersion raw)
    (match storeReceipts raw with
     | Some store => Some store
     | None => Some (mkRawReceiptStore (mkAutoStore [] 1) true)
     end)
    (match storeExpenses raw with
     | Some store => Some store
     | None => Some (mkAutoStore [] 1)
     end)
    (match storeSettings raw with
     | Some store => Some store
     | None => Some ∅
     end)
    (match storeAuth raw with
     | Some store => Some store
     | None => Some ∅
     end).

Inductive OpenError := VersionError.

(** [openDB(DB_NAME, DB_VERSION, { upgrade })]: a database of a higher
    version cannot be opened, one of a lower version is upgraded first. *)
Definition openDB (raw : RawDB) : OpenError + RawDB :=
  if DB_VERSION <? rawVersion raw then inl VersionError
  else if rawVersion raw <? DB_VERSION then
    let upgraded := upgrade raw in
    inr (mkRawDB DB_VERSION (storeReceipts upgraded) (storeExpenses upgraded)
           (storeSettings upgraded) (storeAuth upgraded))
  else inr raw.

(** How the promise in [dbPromise] settled. *)
Inductive Promise :=
  | Resolved
  | Rejected (e : OpenError).

(** [getDB], with the module variable [dbPromise] ([None] is [null]):
    the promise returned, the new [dbPromise] and the database. *)
Definition getDB (dbPromise : option Promise) (raw : RawDB)
    : Promise * option Promise * RawDB :=
  match dbPromise with
  | Some promise => (promise, dbPromise, raw)
  | None =>
      match openDB raw with
      | inl e => (Rejected e, Some (Rejected e), raw)
      | inr raw' => (Resolved, Some Resolved, raw')
      end
  end.

(** The database the rest of the layer works on, when all four stores
    exist and receipt numbers are indexed uniquely. *)
Definition connected (raw : RawDB) : option DB :=
  match storeReceipts raw, storeExpenses raw, storeSettings raw, storeAuth raw with
  | Some r, Some e, Some s, Some a =>
      if receiptNumberUnique r then Some (mkDB (rawReceipts r) e s a) else None
  | _, _, _, _ => None
  end.

(** A device without the database. *)
Definition noDatabase : RawDB := mkRawDB 0 None None None None.

(** The database as the browser holds it once it has been opened. *)
Definition persisted (db : DB) : RawDB :=
  mkRawDB DB_VERSION (Some (mkRawReceiptStore (receipts db) true)) (Some (expenses db))
    (Some (settings db)) (Some (auth db)).

(** *** [ReceiptTemplate] *)

(** What is rendered above "Authorised Signatory": an image with the
    given source, or the typed text. *)
Inductive SignatureContent :=
  | SignatureImage (src : string)
  | SignatureText (text : string).

(** [signatureContent]; [None] when [settings] is [null]. *)
Definition ReceiptTemplate_signatureContent (settings : option Settings.t)
    : option SignatureContent :=
  match settings with
  | Some s =>
      Some
        match Settings.signatureType s with
        | drawn => SignatureImage (Settings.drawnSignature s)
        | uploaded => SignatureImage (Settings.uploadedSignature s)
        | typed => SignatureText (Settings.typedSignature s)
        end
  | None => None
  end.

(** *** The store an operation writes to *)

Inductive StoreName := ReceiptsStore | ExpensesStore | SettingsStore | AuthStore.

Definition storeOf (op : Op) : StoreName :=
  match op with
  | OpSaveAuthCredentials _ _ => AuthStore
  | OpAddReceipt _ => ReceiptsStore
  | OpAddExpense _ => ExpensesStore
  | OpSaveSettings _ => SettingsStore
  end.

(** *** [formatDate] *)

(** A valid [Date], as the UTC fields [toISOString] prints: the month
    counted from 1. *)
Record Date := mkDate {
  utcYear : Z;
  utcMonth : nat;
  utcDay : nat;
  utcHours : nat;
  utcMinutes : nat;
  utcSeconds : nat;
  utcMilliseconds : nat }.

(** The year of an ISO string: four digits from 0 to 9999, otherwise a
    sign and six digits. *)
Definition isoYear (y : Z) : string :=
  if (0 <=? y) && (y <=? 9999) then padStart 4 "0" (String_ofNumber (Z.to_nat y))
  else (if y <? 0 then "-" else "+") +:+ padStart 6 "0" (String_ofNumber (Z.abs_nat y)).

(** The date part of an ISO string. *)
Definition isoDate (date : Date) : string :=
  isoYear (utcYear date) +:+ "-" +:+ padStart 2 "0" (String_ofNumber (utcMonth date))
    +:+ "-" +:+ padStart 2 "0" (String_ofNumber (utcDay date)).

(** [date.toISOString()]: YYYY-MM-DDTHH:mm:ss.sssZ. *)
Definition toISOString (date : Date) : string :=
  isoDate date +:+ "T" +:+ padStart 2 "0" (String_ofNumber (utcHours date))
    +:+ ":" +:+ padStart 2 "0" (String_ofNumber (utcMinutes date))
    +:+ ":" +:+ padStart 2 "0" (String_ofNumber (utcSeconds date))
    +:+ "." +:+ padStart 3 "0" (String_ofNumber (utcMilliseconds date)) +:+ "Z".

(** [s.split(separator)[0]] for a one-character separator: what comes
    before its first occurrence, all of [s] when there is none. *)
Fixpoint splitFirst (separator : ascii) (s : string) : string :=
  match s with
  | "" => ""
  | String c s' => if Ascii.eqb c separator then "" else String c (splitFirst separator s')
  end.

Definition formatDate (date : Date) : string :=
  splitFirst "T" (toISOString date).

(** No character of the string is the given one. *)
Fixpoint lacks (c : ascii) (s : string) : bool :=
  match s with
  | "" => true
  | String c' s' => negb (Ascii.eqb c' c) && lacks c s'
  end.

(** ** Receipt numbering *)

Lemma decimalValue_String_ofNumber (n : nat) :
  decimalValue (String_ofNumber n) = Some n.
Proof.
  unfold decimalValue, String_ofNumber.
  rewrite NilEmpty.usu. simpl. f_equal. apply Unsigned.of_to.
Qed.

Lemma decimalValue_zero (s : string) :
  decimalValue (String "0" s) = decimalValue s.
Proof.
  unfold decimalValue. simpl.
  destruct (NilEmpty.uint_of_string s) as [d|]; reflexivity.
Qed.

Lemma padStart_zero_length (s : string) :
  String.length (padStart 4 "0" s) = Nat.max 4 (String.length s).
Proof.
  destruct s as [|a [|b [|c [|d s]]]]; reflexivity.
Qed.

Lemma padStart_zero_value (s : string) :
  decimalValue (padStart 4 "0" s) = decimalValue s.
Proof.
  destruct s as [|a [|b [|c [|d s]]]]; try reflexivity.
  all: cbv [padStart String.length Nat.leb orb String.eqb Nat.sub repeat
            String.concat substring String.append Ascii.eqb Bool.eqb].
  all: rewrite ?decimalValue_zero; reflexivity.
Qed.

(** The sequence part of a receipt number: at least four characters, no
    more than the number's digits need, and denoting the number. *)
Lemma zero_padded_sequence (n : nat) :
  let digits := padStart 4 "0" (String_ofNumber n) in
  String.length digits = Nat.max 4 (String.length (String_ofNumber n)) /\
  decimalValue digits = Some n.
Proof.
  split.
  - apply padStart_zero_length.
  - rewrite padStart_zero_value. apply decimalValue_String_ofNumber.
Qed.

Lemma receiptNumber_inj (m n : nat) :
  NewReceiptPage_receiptNumber m = NewReceiptPage_receiptNumber n -> m = n.
Proof.
  unfold NewReceiptPage_receiptNumber. intros H.
  change ("NSM-" +:+ ?x) with (String "N" (String "S" (String "M" (String "-" x)))) in H.
  injection H as H.
  apply (f_equal decimalValue) in H.
  rewrite !padStart_zero_value, !decimalValue_String_ofNumber in H.
  injection H as H. lia.
Qed.

(** The unique index holds exactly the receipt numbers of the stored
    records. *)
Lemma indexContains_In (rn : string) (rs : list Receipt.t) :
  indexContains rn rs = true <-> In rn (map Receipt.receiptNumber rs).
Proof.
  unfold indexContains. rewrite existsb_exists, in_map_iff.
  split; intros [r [H1 H2]]; exists r.
  - apply String.eqb_eq in H2. auto.
  - split; [assumption | apply String.eqb_eq; assumption].
Qed.

Lemma indexContains_not_In (rn : string) (rs : list Receipt.t) :
  indexContains rn rs = false <-> ~ In rn (map Receipt.receiptNumber rs).
Proof.
  rewrite <- indexContains_In. destruct (indexContains rn rs); split; congruence.
Qed.

Lemma numbered_fresh (db : DB) :
  numbered db ->
  indexContains (NewReceiptPage_receiptNumber (length (getAllReceipts db)))
    (getAllReceipts db) = false.
Proof.
  intros [_ Hn]. apply indexContains_not_In. rewrite Hn.
  intros Hin. apply in_map_iff in Hin as [i [Hi Hs]].
  apply receiptNumber_inj in Hi. apply in_seq in Hs. lia.
Qed.

Lemma createReceipt_numbered (data : ReceiptFormData.t) (db : DB) :
  numbered db ->
  exists db',
    createReceipt data db = inr (Z.of_nat (length (getAllReceipts db)) + 1, db') /\
    getAllReceipts db' =
      getAllReceipts db ++
        [receiptOf (Z.of_nat (length (getAllReceipts db)) + 1)
           (length (getAllReceipts db)) data] /\
    numbered db'.
Proof.
  intros Hn. pose proof (numbered_fresh db Hn) as Hf. destruct Hn as [Hk Hn].
  unfold createReceipt, NewReceiptPage_onSubmit, NewReceiptPage_fetchLastReceipt, addReceipt.
  cbn [NewReceipt.receiptNumber]. unfold getAllReceipts in *. rewrite Hf, Hk.
  eexists. split; [reflexivity|]. split; [reflexivity|].
  unfold numbered, getAllReceipts. cbn [receipts records keygen].
  rewrite length_app. cbn [length]. split; [lia|].
  rewrite Nat.add_1_r, seq_S, !map_app, Hn. reflexivity.
Qed.

Lemma createAll_numbered (datas : list ReceiptFormData.t) (db : DB) :
  numbered db ->
  numbered (createAll datas db) /\
  length (getAllReceipts (createAll datas db)) =
    (length (getAllReceipts db) + length datas)%nat.
Proof.
  revert db. induction datas as [|d datas IH]; intros db Hn.
  - cbn. split; [assumption | lia].
  - cbn [createAll fold_left].
    destruct (createReceipt_numbered d db Hn) as [db' [Hc [Hr Hn']]].
    rewrite Hc. destruct (IH db' Hn') as [H1 H2]. split; [exact H1|].
    unfold createAll in H2. rewrite H2, Hr, length_app. cbn [length]. lia.
Qed.

Lemma numbered_emptyDB : numbered emptyDB.
Proof. split; reflexivity. Qed.

(** C1. Every receipt creation assigns the receipt number made of the
    prefix "NSM-" and the receipt count plus one, zero-padded to four
    digits. (1) Whatever the store, the creation either appends a record
    that carries this number and the form's fields under the key the
    generator supplied, or is rejected because the number is already
    stored; the padded sequence has at least four characters, no more than
    the digits need, and denotes count + 1. (2) Creations made one after
    the other from the empty store all succeed, the next one returning
    key count + 1. (3) With three receipts stored the next number is
    "NSM-0004"; from the empty store the first creation returns key 1 and
    "NSM-0001", and a second one with the same fields returns key 2 and
    "NSM-0002". *)
Theorem C1_receipt_numbering :
  (forall (data : ReceiptFormData.t) (db : DB),
     let count := length (getAllReceipts db) in
     let digits := padStart 4 "0" (String_ofNumber (count + 1)) in
     let number := "NSM-" +:+ digits in
     String.length digits = Nat.max 4 (String.length (String_ofNumber (count + 1))) /\
     decimalValue digits = Some (count + 1)%nat /\
     match createReceipt data db with
     | inr (key, db') =>
         key = keygen (receipts db) /\
         getAllReceipts db' =
           getAllReceipts db ++
             [Receipt.mk key number
                (ReceiptFormData.name data) (ReceiptFormData.blockNumber data)
                (ReceiptFormData.amount data) (ReceiptFormData.date data)
                (ReceiptFormData.forMonth data) (ReceiptFormData.paymentMethod data)]
     | inl e =>
         e = ConstraintViolation /\
         In number (map Receipt.receiptNumber (getAllReceipts db))
     end) /\
  (forall (datas : list ReceiptFormData.t) (data : ReceiptFormData.t),
     let db := createAll datas emptyDB in
     length (getAllReceipts db) = length datas /\
     exists db',
       createReceipt data db = inr (Z.of_nat (length datas) + 1, db') /\
       getAllReceipts db' =
         getAllReceipts db ++
           [receiptOf (Z.of_nat (length datas) + 1) (length datas) data]) /\
  NewReceiptPage_receiptNumber 3 = "NSM-0004" /\
  (exists db1 db2,
     createReceipt scenarioData emptyDB = inr (1, db1) /\
     getAllReceipts db1 = [Receipt.mk 1 "NSM-0001" "A" "12" 500 "2024-01-01" "2024-01" Cash] /\
     createReceipt scenarioData db1 = inr (2, db2) /\
     getAllReceipts db2 =
       [Receipt.mk 1 "NSM-0001" "A" "12" 500 "2024-01-01" "2024-01" Cash;
        Receipt.mk 2 "NSM-0002" "A" "12" 500 "2024-01-01" "2024-01" Cash]).
Proof.
  split; [|split; [|split; [reflexivity|]]].
  - intros data db count digits number.
    destruct (zero_padded_sequence (count + 1)) as [Hl Hv].
    split; [exact Hl|]. split; [exact Hv|].
    unfold createReceipt, NewReceiptPage_onSubmit, NewReceiptPage_fetchLastReceipt, addReceipt.
    cbn [NewReceipt.receiptNumber].
    fold count. unfold NewReceiptPage_receiptNumber. fold digits. fold number.
    destruct (indexContains number (records (receipts db))) eqn:Hi.
    + split; [reflexivity|]. apply indexContains_In. exact Hi.
    + split; reflexivity.
  - intros datas data db.
    destruct (createAll_numbered datas emptyDB numbered_emptyDB) as [Hn Hlen].
    fold db in Hn, Hlen. cbn in Hlen. split; [exact Hlen|].
    destruct (createReceipt_numbered data db Hn) as [db' [Hc [Hr _]]].
    rewrite Hlen in Hc, Hr. exists db'. split; assumption.
  - eexists. eexists. split; [reflexivity|]. split; [reflexivity|].
    split; reflexivity.
Qed.

(** ** Invariants of reachable databases *)

Lemma run_invariant (P : DB -> Prop) :
  (forall db op, P db -> P (step db op)) ->
  forall ops db, P db -> P (run ops db).
Proof.
  intros Hstep ops. induction ops as [|op ops IH]; intros db Hdb.
  - exact Hdb.
  - cbn [run fold_left]. apply IH. apply Hstep. exact Hdb.
Qed.

Lemma reachable_invariant (P : DB -> Prop) :
  P emptyDB ->
  (forall db op, P db -> P (step db op)) ->
  forall db, reachable db -> P db.
Proof.
  intros H0 Hstep db [ops ->]. apply run_invariant; assumption.
Qed.

Lemma reachable_emptyDB : reachable emptyDB.
Proof. exists []. reflexivity. Qed.

Lemma reachable_step (db : DB) (op : Op) : reachable db -> reachable (step db op).
Proof.
  intros [ops ->]. exists (ops ++ [op]). unfold run.
  rewrite fold_left_app. reflexivity.
Qed.

(** ** Uniqueness of receipt numbers *)

Lemma addReceipt_accepts (receipt : NewReceipt.t) (db : DB) :
  indexContains (NewReceipt.receiptNumber receipt) (getAllReceipts db) = false ->
  addReceipt receipt db =
    inr (keygen (receipts db),
         mkDB (mkAutoStore (getAllReceipts db ++ [withId (keygen (receipts db)) receipt])
                 (keygen (receipts db) + 1))
           (expenses db) (settings db) (auth db)).
Proof. unfold addReceipt, getAllReceipts. intros ->. reflexivity. Qed.

Lemma addReceipt_rejects (receipt : NewReceipt.t) (db : DB) :
  indexContains (NewReceipt.receiptNumber receipt) (getAllReceipts db) = true ->
  addReceipt receipt db = inl ConstraintViolation.
Proof. unfold addReceipt, getAllReceipts. intros ->. reflexivity. Qed.

Lemma step_uniqueReceiptNumbers (db : DB) (op : Op) :
  uniqueReceiptNumbers db -> uniqueReceiptNumbers (step db op).
Proof.
  intros Hu. destruct op as [u h|r|e|s]; try exact Hu.
  cbn [step].
  destruct (indexContains (NewReceipt.receiptNumber r) (getAllReceipts db)) eqn:Hi.
  - rewrite (addReceipt_rejects _ _ Hi). exact Hu.
  - rewrite (addReceipt_accepts _ _ Hi).
    unfold uniqueReceiptNumbers, getAllReceipts in *. cbn [receipts records].
    rewrite map_app. apply List.NoDup_app.
    + exact Hu.
    + cbn. constructor; [intros [] | constructor].
    + intros a Ha [<-|[]]. apply indexContains_not_In in Hi. exact (Hi Ha).
Qed.

(** C2, as stated for any state of the store, fails: when the store
    already holds the number, both attempts are rejected and none
    succeeds. *)
Lemma C2_counterexample :
  reachable storeWithNSM1 /\
  addTwo receiptNSM1 receiptNSM1 storeWithNSM1 =
    (inl ConstraintViolation, inl ConstraintViolation) /\
  ~ exactlyOneSuccess (addTwo receiptNSM1 receiptNSM1 storeWithNSM1).
Proof.
  split; [|split].
  - apply reachable_step, reachable_emptyDB.
  - reflexivity.
  - intros [[H _]|[_ H]]; discriminate H.
Qed.

(** C2 (amended). For any state of the store that does not yet hold the
    receipt number, storing two receipts that carry the same receipt
    number results in exactly one successful insertion, the first, and
    one ConstraintViolation for the other, which leaves the store as the
    first left it; when the store already holds the number both attempts
    are rejected. Consequently no two receipts of a reachable store share
    a receipt number. *)
Theorem C2_receipt_number_unique (r1 r2 : NewReceipt.t) (db : DB) :
  NewReceipt.receiptNumber r1 = NewReceipt.receiptNumber r2 ->
  (indexContains (NewReceipt.receiptNumber r1) (getAllReceipts db) = false ->
   exists key db1,
     addTwo r1 r2 db = (inr (key, db1), inl ConstraintViolation) /\
     getAllReceipts db1 = getAllReceipts db ++ [withId key r1] /\
     exactlyOneSuccess (addTwo r1 r2 db)) /\
  (indexContains (NewReceipt.receiptNumber r1) (getAllReceipts db) = true ->
   addTwo r1 r2 db = (inl ConstraintViolation, inl ConstraintViolation)) /\
  (forall db', reachable db' -> uniqueReceiptNumbers db').
Proof.
  intros Heq. split; [|split].
  - intros Hi. unfold addTwo. rewrite (addReceipt_accepts _ _ Hi).
    eexists. eexists. split; [|split].
    + apply (f_equal2 pair); [reflexivity|].
      apply addReceipt_rejects. rewrite <- Heq.
      apply indexContains_In. unfold getAllReceipts. cbn [receipts records].
      rewrite map_app. apply in_or_app. right. left. reflexivity.
    + reflexivity.
    + left. split; [reflexivity|]. cbn [snd].
      rewrite addReceipt_rejects; [reflexivity|]. rewrite <- Heq.
      apply indexContains_In. unfold getAllReceipts. cbn [receipts records].
      rewrite map_app. apply in_or_app. right. left. reflexivity.
  - intros Hi. unfold addTwo. rewrite (addReceipt_rejects _ _ Hi).
    f_equal. apply addReceipt_rejects. rewrite <- Heq. exact Hi.
  - apply reachable_invariant.
    + constructor.
    + apply step_uniqueReceiptNumbers.
Qed.

Lemma C2_receipt_number_unique_witness :
  (exists key db1,
     addTwo receiptNSM1 receiptNSM1 emptyDB = (inr (key, db1), inl ConstraintViolation) /\
     getAllReceipts db1 = getAllReceipts emptyDB ++ [withId key receiptNSM1] /\
     exactlyOneSuccess (addTwo receiptNSM1 receiptNSM1 emptyDB)) /\
  uniqueReceiptNumbers storeWithNSM1.
Proof.
  destruct (C2_receipt_number_unique receiptNSM1 receiptNSM1 emptyDB eq_refl)
    as [H1 [_ H3]].
  split.
  - apply H1. reflexivity.
  - apply H3. apply reachable_step, reachable_emptyDB.
Defined.

(** ** Credentials *)

Lemma login_true_iff (digest : list byte -> list byte) (user pass : string)
    (st : AuthState) (db : DB) :
  fst (AuthProvider_login digest user pass st db) = true <->
  user = "admin" /\
  exists credentials,
    getAuthCredentials "admin" db = Some credentials /\
    sha256 digest pass = Credential.passwordHash credentials.
Proof.
  unfold AuthProvider_login.
  destruct (String.eqb user "admin") eqn:Hu.
  - apply String.eqb_eq in Hu.
    destruct (getAuthCredentials "admin" db) as [c|].
    + destruct (String.eqb (sha256 digest pass) (Credential.passwordHash c)) eqn:Hp.
      * apply String.eqb_eq in Hp. split; [|reflexivity].
        intros _. split; [exact Hu|]. exists c. split; [reflexivity | exact Hp].
      * apply String.eqb_neq in Hp. split; [discriminate|].
        intros [_ [c' [Hc Hh]]]. injection Hc as <-. contradiction.
    + split; [discriminate|]. intros [_ [c' [Hc _]]]. discriminate Hc.
  - apply String.eqb_neq in Hu. split; [discriminate|].
    intros [Hu' _]. contradiction.
Qed.

Lemma getAuthCredentials_save (u h : string) (db : DB) :
  getAuthCredentials u (snd (saveAuthCredentials u h db)) = Some (Credential.mk u h).
Proof. unfold getAuthCredentials, saveAuthCredentials. cbn. apply lookup_insert_eq. Qed.

Lemma changePassword_cases (digest : list byte -> list byte)
    (data : PasswordFormData) (db : DB) :
  match getAuthCredentials "admin" db with
  | Some credentials =>
      if String.eqb (sha256 digest (currentPassword data))
           (Credential.passwordHash credentials)
      then
        ChangePasswordForm_onSubmit digest data db =
          (Some (mkMessage success "Password updated successfully!"),
           snd (saveAuthCredentials "admin" (sha256 digest (newPassword data)) db))
      else ChangePasswordForm_onSubmit digest data db = (Some WrongCurrentPassword, db)
  | None => ChangePasswordForm_onSubmit digest data db = (None, db)
  end.
Proof.
  unfold ChangePasswordForm_onSubmit.
  destruct (getAuthCredentials "admin" db) as [c|]; [|reflexivity].
  destruct (String.eqb _ _); reflexivity.
Qed.

(** C3. [login] resolves to true exactly when the user name is "admin", a
    credential is stored for it and the digest of the password equals the
    stored digest; a wrong user, a missing credential and a wrong password
    all give false. *)
Theorem C3_credential_verification (digest : list byte -> list byte)
    (user pass : string) (st : AuthState) (db : DB) :
  (fst (AuthProvider_login digest user pass st db) = true <->
   user = "admin" /\
   exists credentials,
     getAuthCredentials "admin" db = Some credentials /\
     sha256 digest pass = Credential.passwordHash credentials) /\
  (user <> "admin" -> fst (AuthProvider_login digest user pass st db) = false) /\
  (getAuthCredentials "admin" db = None ->
   fst (AuthProvider_login digest user pass st db) = false) /\
  (forall credentials,
     getAuthCredentials "admin" db = Some credentials ->
     sha256 digest pass <> Credential.passwordHash credentials ->
     fst (AuthProvider_login digest user pass st db) = false).
Proof.
  pose proof (login_true_iff digest user pass st db) as Hiff.
  split; [exact Hiff|].
  destruct (fst (AuthProvider_login digest user pass st db)).
  - destruct (proj1 Hiff eq_refl) as [Hu [c [Hc Hh]]].
    split; [|split].
    + intros Hn. contradiction.
    + intros Hn. congruence.
    + intros c' Hc' Hn. congruence.
  - repeat split; reflexivity.
Qed.

(** C4, as stated, fails when no credential is stored: nothing is
    reported then, neither the update nor a wrong current password. *)
Lemma C4_counterexample :
  getAuthCredentials "admin" emptyDB = None /\
  ChangePasswordForm_onSubmit plainDigest
    (mkPasswordFormData "google" "secret1" "secret1") emptyDB = (None, emptyDB) /\
  fst (ChangePasswordForm_onSubmit plainDigest
         (mkPasswordFormData "google" "secret1" "secret1") emptyDB)
    <> Some WrongCurrentPassword.
Proof. split; [reflexivity|]. split; [reflexivity|]. discriminate. Qed.

(** C4 (amended). [onSubmit] reports the update exactly when a credential
    is stored and the digest of the current password equals its digest,
    and then the stored credential is replaced by the digest of the new
    password, nothing else changing. In every other case the database is
    left as it was: with a stored credential the wrong current password is
    reported, with none stored nothing is reported. It never throws. *)
Theorem C4_change_password (digest : list byte -> list byte)
    (data : PasswordFormData) (db : DB) :
  let out := ChangePasswordForm_onSubmit digest data db in
  (passwordUpdated (fst out) = true <->
   exists credentials,
     getAuthCredentials "admin" db = Some credentials /\
     sha256 digest (currentPassword data) = Credential.passwordHash credentials) /\
  (passwordUpdated (fst out) = true ->
   snd out =
     mkDB (receipts db) (expenses db) (settings db)
       (<["admin" := Credential.mk "admin" (sha256 digest (newPassword data))]> (auth db)) /\
   getAuthCredentials "admin" (snd out) =
     Some (Credential.mk "admin" (sha256 digest (newPassword data)))) /\
  (passwordUpdated (fst out) = false ->
   snd out = db /\
   match getAuthCredentials "admin" db with
   | Some _ => fst out = Some WrongCurrentPassword
   | None => fst out = None
   end).
Proof.
  intros out. subst out.
  pose proof (changePassword_cases digest data db) as H.
  destruct (getAuthCredentials "admin" db) as [c|] eqn:Hc.
  - destruct (String.eqb _ _) eqn:Hp; rewrite H; cbn [fst snd passwordUpdated].
    + apply String.eqb_eq in Hp. split; [|split].
      * split; [|reflexivity]. intros _. exists c. split; [reflexivity | exact Hp].
      * intros _. split; [reflexivity|]. apply getAuthCredentials_save.
      * discriminate.
    + apply String.eqb_neq in Hp. split; [|split].
      * split; [discriminate|]. intros [c' [Hc' Hh]]. congruence.
      * discriminate.
      * intros _. split; reflexivity.
  - rewrite H. cbn [fst snd passwordUpdated]. split; [|split].
    + split; [discriminate|]. intros [c' [Hc' _]]. discriminate.
    + discriminate.
    + intros _. split; reflexivity.
Qed.

(** C5, as stated for any two passwords, fails when the new password is
    the current one: the change succeeds and the old password still
    verifies. *)
Lemma C5_counterexample :
  ~ (("google" <> "google" ->
      sha256 plainDigest "google" <> sha256 plainDigest "google") ->
     passwordUpdated
       (fst (ChangePasswordForm_onSubmit plainDigest
               (mkPasswordFormData "google" "google" "google") seededDB)) = true ->
     fst (AuthProvider_login plainDigest "admin" "google" noSession
            (snd (ChangePasswordForm_onSubmit plainDigest
                    (mkPasswordFormData "google" "google" "google") seededDB))) = false /\
     fst (AuthProvider_login plainDigest "admin" "google" noSession
            (snd (ChangePasswordForm_onSubmit plainDigest
                    (mkPasswordFormData "google" "google" "google") seededDB))) = true).
Proof.
  intros H.
  assert (Hv : "google" <> "google" ->
               sha256 plainDigest "google" <> sha256 plainDigest "google")
    by (intros Hn; contradiction).
  destruct (H Hv eq_refl) as [Hold _].
  vm_compute in Hold. discriminate Hold.
Qed.

(** C5 (amended). For passwords old and new that differ, whose digests
    then differ too, once the change from old to new has succeeded the
    login of "admin" with old fails and the one with new succeeds. *)
Theorem C5_credential_round_trip (digest : list byte -> list byte)
    (data : PasswordFormData) (st : AuthState) (db : DB) :
  currentPassword data <> newPassword data ->
  (currentPassword data <> newPassword data ->
   sha256 digest (currentPassword data) <> sha256 digest (newPassword data)) ->
  passwordUpdated (fst (ChangePasswordForm_onSubmit digest data db)) = true ->
  let db' := snd (ChangePasswordForm_onSubmit digest data db) in
  fst (AuthProvider_login digest "admin" (currentPassword data) st db') = false /\
  fst (AuthProvider_login digest "admin" (newPassword data) st db') = true.
Proof.
  intros Hne Hcr Hup db'. subst db'. specialize (Hcr Hne).
  pose proof (changePassword_cases digest data db) as H.
  destruct (getAuthCredentials "admin" db) as [c|].
  2: { rewrite H in Hup. discriminate Hup. }
  destruct (String.eqb _ _).
  2: { rewrite H in Hup. discriminate Hup. }
  rewrite H. cbn [snd]. split.
  - destruct (fst (AuthProvider_login digest "admin" (currentPassword data) st _)) eqn:Hl;
      [|reflexivity].
    apply login_true_iff in Hl as [_ [c' [Hc' Hh]]].
    rewrite getAuthCredentials_save in Hc'. injection Hc' as <-.
    cbn in Hh. contradiction.
  - apply login_true_iff. split; [reflexivity|].
    eexists. split; [apply getAuthCredentials_save | reflexivity].
Qed.

Lemma C5_credential_round_trip_witness :
  fst (AuthProvider_login plainDigest "admin" "google" noSession
         (snd (ChangePasswordForm_onSubmit plainDigest
                 (mkPasswordFormData "google" "secret1" "secret1") seededDB))) = false /\
  fst (AuthProvider_login plainDigest "admin" "secret1" noSession
         (snd (ChangePasswordForm_onSubmit plainDigest
                 (mkPasswordFormData "google" "secret1" "secret1") seededDB))) = true.
Proof.
  apply (C5_credential_round_trip plainDigest
           (mkPasswordFormData "google" "secret1" "secret1") noSession seededDB).
  - discriminate.
  - intros _. vm_compute. discriminate.
  - vm_compute. reflexivity.
Defined.

Lemma checkAuth_db (digest : list byte -> list byte) (st : AuthState) (db : DB) :
  snd (AuthProvider_checkAuth digest st db) =
    match getAuthCredentials "admin" db with
    | Some _ => db
    | None => snd (saveAuthCredentials "admin" (sha256 digest "google") db)
    end.
Proof.
  unfold AuthProvider_checkAuth.
  destruct (getAuthCredentials "admin" db); reflexivity.
Qed.

Lemma checkAuth_idempotent (digest : list byte -> list byte) (st : AuthState) (db : DB) :
  let once := AuthProvider_checkAuth digest st db in
  AuthProvider_checkAuth digest (fst once) (snd once) = once.
Proof.
  intros once. subst once. unfold AuthProvider_checkAuth at 1.
  assert (Hs : is_Some (getAuthCredentials "admin"
                          (snd (AuthProvider_checkAuth digest st db)))).
  { rewrite checkAuth_db.
    destruct (getAuthCredentials "admin" db) eqn:Hc.
    - rewrite Hc. eauto.
    - rewrite getAuthCredentials_save. eauto. }
  destruct Hs as [c ->].
  unfold AuthProvider_checkAuth.
  destruct (getAuthCredentials "admin" db); cbn [fst snd];
    destruct (decide (sessionStorage st !! "isAuthenticated" = Some "true")) as [He|He];
    cbn [sessionStorage];
    destruct (decide (sessionStorage st !! "isAuthenticated" = Some "true"));
    try contradiction; reflexivity.
Qed.

(** C9. Seeding the default administrator is idempotent: when no
    credential is stored for "admin" the start-up check stores the digest
    of "google" for it and changes nothing else; when one is stored the
    database stays as it is; and running the check any number of times
    after the first gives the state the first run gave. *)
Theorem C9_default_admin_seeding (digest : list byte -> list byte)
    (st : AuthState) (db : DB) :
  let check := fun p : AuthState * DB => AuthProvider_checkAuth digest (fst p) (snd p) in
  (getAuthCredentials "admin" db = None ->
   snd (check (st, db)) =
     mkDB (receipts db) (expenses db) (settings db)
       (<["admin" := Credential.mk "admin" (sha256 digest "google")]> (auth db)) /\
   getAuthCredentials "admin" (snd (check (st, db))) =
     Some (Credential.mk "admin" (sha256 digest "google"))) /\
  (forall credentials,
     getAuthCredentials "admin" db = Some credentials ->
     snd (check (st, db)) = db) /\
  (forall n : nat, Nat.iter n check (check (st, db)) = check (st, db)).
Proof.
  intros check.
  change (check (st, db)) with (AuthProvider_checkAuth digest st db).
  split; [|split].
  - intros Hn. rewrite checkAuth_db, Hn. split; [reflexivity|].
    apply getAuthCredentials_save.
  - intros c Hc. rewrite checkAuth_db, Hc. reflexivity.
  - induction n as [|n IH]; [reflexivity|].
    rewrite Nat.iter_succ, IH. exact (checkAuth_idempotent digest st db).
Qed.

(** ** JavaScript numbers: whole numbers up to 2^53 are added exactly *)

Lemma iter_xO_value (m n : positive) :
  Zpos (Pos.iter xO m n) = Zpos m * 2 ^ Zpos n.
Proof.
  induction n as [|n IH] using Pos.peano_ind.
  - cbn. lia.
  - rewrite Pos.iter_succ. change (Zpos (Pos.iter xO m n)~0) with (2 * Zpos (Pos.iter xO m n)).
    rewrite IH, Pos2Z.inj_succ, Z.pow_succ_r by lia. lia.
Qed.

Lemma shiftPos_value (m : positive) (k : Z) :
  0 <= k -> Zpos (shiftPos m k) = Zpos m * 2 ^ k.
Proof.
  intros Hk. destruct k as [|n|n]; cbn [shiftPos]; [lia| |lia].
  apply iter_xO_value.
Qed.

Lemma iter_xO_digits (m n : positive) :
  SpecFloat.digits2_pos (Pos.iter xO m n) = (SpecFloat.digits2_pos m + n)%positive.
Proof.
  induction n as [|n IH] using Pos.peano_ind.
  - cbn. lia.
  - rewrite Pos.iter_succ. cbn [SpecFloat.digits2_pos]. rewrite IH. lia.
Qed.

Lemma shiftPos_digits (m : positive) (k : Z) :
  0 <= k -> Zpos (SpecFloat.digits2_pos (shiftPos m k)) = Zpos (SpecFloat.digits2_pos m) + k.
Proof.
  intros Hk. destruct k as [|n|n]; cbn [shiftPos]; [lia| |lia].
  rewrite iter_xO_digits. lia.
Qed.

Lemma digits2_pos_bounds (p : positive) :
  2 ^ (Zpos (SpecFloat.digits2_pos p) - 1) <= Zpos p < 2 ^ Zpos (SpecFloat.digits2_pos p).
Proof.
  induction p as [p IH|p IH|]; cbn [SpecFloat.digits2_pos].
  - rewrite Pos2Z.inj_succ, Pos2Z.inj_xI.
    set (d := Zpos (SpecFloat.digits2_pos p)) in *.
    replace (Z.succ d - 1) with (Z.succ (d - 1)) by lia.
    assert (Hd : 0 < d) by (subst d; lia). clearbody d.
    rewrite !Z.pow_succ_r by lia.
    generalize dependent (2 ^ (d - 1)). generalize dependent (2 ^ d). intros; lia.
  - rewrite Pos2Z.inj_succ. change (Zpos p~0) with (2 * Zpos p).
    set (d := Zpos (SpecFloat.digits2_pos p)) in *.
    replace (Z.succ d - 1) with (Z.succ (d - 1)) by lia.
    assert (Hd : 0 < d) by (subst d; lia). clearbody d.
    rewrite !Z.pow_succ_r by lia.
    generalize dependent (2 ^ (d - 1)). generalize dependent (2 ^ d). intros; lia.
  - cbn. lia.
Qed.

Lemma iter_pos_commute {A : Type} (f : A -> A) (n : positive) (x : A) :
  SpecFloat.iter_pos f n (f x) = f (SpecFloat.iter_pos f n x).
Proof.
  revert x. induction n as [n IH|n IH|]; intros x; cbn [SpecFloat.iter_pos].
  - rewrite !IH. reflexivity.
  - rewrite !IH. reflexivity.
  - reflexivity.
Qed.

Lemma iter_pos_succ {A : Type} (f : A -> A) (n : positive) (x : A) :
  SpecFloat.iter_pos f (Pos.succ n) x = SpecFloat.iter_pos f n (f x).
Proof.
  revert x. induction n as [n IH|n IH|]; intros x.
  - change (SpecFloat.iter_pos f (Pos.succ n~1) x)
      with (SpecFloat.iter_pos f (Pos.succ n) (SpecFloat.iter_pos f (Pos.succ n) x)).
    rewrite !IH. cbn [SpecFloat.iter_pos]. rewrite !iter_pos_commute. reflexivity.
  - reflexivity.
  - reflexivity.
Qed.

Lemma shr_exact (m n : positive) :
  SpecFloat.iter_pos SpecFloat.shr_1 n
    (SpecFloat.Build_shr_record (Zpos (Pos.iter xO m n)) false false) =
  SpecFloat.Build_shr_record (Zpos m) false false.
Proof.
  induction n as [|n IH] using Pos.peano_ind.
  - reflexivity.
  - rewrite iter_pos_succ, Pos.iter_succ. cbn [SpecFloat.shr_1 orb]. exact IH.
Qed.

Lemma shr_fexp_exact (m : positive) (n t : Z) :
  SpecFloat.digits2_pos m = 53%positive ->
  0 <= n -> -1074 <= t ->
  SpecFloat.shr_fexp 53 1024 (Zpos (shiftPos m n)) (t - n) SpecFloat.loc_Exact =
    (SpecFloat.Build_shr_record (Zpos m) false false, t).
Proof.
  intros Hd Hn Ht. unfold SpecFloat.shr_fexp, SpecFloat.fexp, SpecFloat.emin.
  cbn [SpecFloat.Zdigits2 SpecFloat.shr_record_of_loc].
  rewrite (shiftPos_digits m n Hn), Hd.
  replace (Z.max (53 + n + (t - n) - 53) (3 - 1024 - 53) - (t - n)) with n by lia.
  destruct n as [|p|p]; cbn [SpecFloat.shr shiftPos]; [|rewrite shr_exact|lia];
    f_equal; lia.
Qed.

Lemma binary_round_aux_exact (s : bool) (m : positive) (n t : Z) :
  SpecFloat.digits2_pos m = 53%positive ->
  0 <= n -> -1074 <= t <= 971 ->
  SpecFloat.binary_round_aux 53 1024 s (Zpos (shiftPos m n)) (t - n) SpecFloat.loc_Exact =
    SpecFloat.S754_finite s m t.
Proof.
  intros Hd Hn Ht. unfold SpecFloat.binary_round_aux.
  rewrite (shr_fexp_exact m n t Hd Hn) by lia.
  cbn [SpecFloat.shr_m SpecFloat.loc_of_shr_record SpecFloat.round_nearest_even].
  pose proof (shr_fexp_exact m 0 t Hd) as H0. cbn [shiftPos] in H0.
  rewrite Z.sub_0_r in H0. rewrite H0 by lia.
  cbn [SpecFloat.shr_m]. replace (t <=? 1024 - 53) with true by (symmetry; apply Z.leb_le; lia).
  reflexivity.
Qed.

(** The binary64 value of a positive integer below 2^53, given at any
    scale: mantissa [m * 2^k] and exponent [- k]. *)
Lemma binary_round_scaled (s : bool) (m : positive) (k : Z) :
  Zpos m < 2 ^ 53 -> 0 <= k ->
  SpecFloat.binary_round 53 1024 s (shiftPos m k) (- k) =
    SpecFloat.S754_finite s
      (shiftPos m (53 - Zpos (SpecFloat.digits2_pos m)))
      (Zpos (SpecFloat.digits2_pos m) - 53).
Proof.
  intros Hm Hk.
  assert (Hd : Zpos (SpecFloat.digits2_pos m) <= 53).
  { pose proof (digits2_pos_bounds m) as [Hlo _].
    destruct (Z_le_gt_dec (Zpos (SpecFloat.digits2_pos m)) 53) as [H|H]; [exact H|].
    exfalso. assert (2 ^ 53 <= 2 ^ (Zpos (SpecFloat.digits2_pos m) - 1))
      by (apply Z.pow_le_mono_r; lia). lia. }
  set (d := Zpos (SpecFloat.digits2_pos m)) in *.
  assert (Hcanon : SpecFloat.digits2_pos (shiftPos m (53 - d)) = 53%positive).
  { apply Pos2Z.inj. rewrite shiftPos_digits by lia. fold d. lia. }
  unfold SpecFloat.binary_round, SpecFloat.fexp, SpecFloat.emin.
  rewrite (shiftPos_digits m k Hk). fold d.
  replace (Z.max (d + k + - k - 53) (3 - 1024 - 53)) with (d - 53) by (subst d; lia).
  unfold SpecFloat.shl_align.
  destruct (d - 53 - - k) as [|p|p] eqn:Hs.
  - replace (shiftPos m k) with (shiftPos (shiftPos m (53 - d)) 0).
    + replace (- k) with (d - 53 - 0) by lia.
      apply binary_round_aux_exact; [exact Hcanon|lia|subst d; lia].
    + cbn [shiftPos]. f_equal. lia.
  - replace (shiftPos m k) with (shiftPos (shiftPos m (53 - d)) (Zpos p)).
    + replace (- k) with (d - 53 - Zpos p) by lia.
      apply binary_round_aux_exact; [exact Hcanon|lia|subst d; lia].
    + apply Pos2Z.inj. rewrite !shiftPos_value by lia.
      rewrite <- Z.mul_assoc, <- Z.pow_add_r by lia. do 2 f_equal. lia.
  - replace (Pos.iter xO (shiftPos m k) p) with (shiftPos (shiftPos m (53 - d)) 0).
    + replace (d - 53) with (d - 53 - 0) at 1 by lia.
      apply binary_round_aux_exact; [exact Hcanon|lia|subst d; lia].
    + cbn [shiftPos]. apply Pos2Z.inj. rewrite iter_xO_value, !shiftPos_value by lia.
      rewrite <- Z.mul_assoc, <- Z.pow_add_r by lia. do 2 f_equal. lia.
Qed.

Lemma toNumber_pos (p : positive) :
  Zpos p < 2 ^ 53 -> toNumber (Zpos p) = canonical false p.
Proof.
  intros Hp. unfold toNumber. cbn [SpecFloat.binary_normalize].
  exact (binary_round_scaled false p 0 Hp (Z.le_refl 0)).
Qed.

Lemma toNumber_neg (p : positive) :
  Zpos p < 2 ^ 53 -> toNumber (Zneg p) = canonical true p.
Proof.
  intros Hp. unfold toNumber. cbn [SpecFloat.binary_normalize].
  exact (binary_round_scaled true p 0 Hp (Z.le_refl 0)).
Qed.

Lemma digits_le_53 (m : positive) : Zpos m < 2 ^ 53 -> Zpos (SpecFloat.digits2_pos m) <= 53.
Proof.
  intros Hm. pose proof (digits2_pos_bounds m) as [Hlo _].
  destruct (Z_le_gt_dec (Zpos (SpecFloat.digits2_pos m)) 53) as [H|H]; [exact H|].
  exfalso. assert (2 ^ 53 <= 2 ^ (Zpos (SpecFloat.digits2_pos m) - 1))
    by (apply Z.pow_le_mono_r; lia). lia.
Qed.

(** The signed mantissa of an integer, aligned at exponent [ez]. *)
Lemma aligned_mantissa (s : bool) (m : positive) (ez : Z) :
  Zpos m < 2 ^ 53 ->
  ez <= Zpos (SpecFloat.digits2_pos m) - 53 ->
  SpecFloat.cond_Zopp s
    (Zpos (fst (SpecFloat.shl_align
                  (shiftPos m (53 - Zpos (SpecFloat.digits2_pos m)))
                  (Zpos (SpecFloat.digits2_pos m) - 53) ez))) =
    SpecFloat.cond_Zopp s (Zpos m) * 2 ^ (- ez).
Proof.
  intros Hm He. pose proof (digits_le_53 m Hm) as Hd.
  set (d := Zpos (SpecFloat.digits2_pos m)) in *.
  assert (Hv : Zpos (fst (SpecFloat.shl_align (shiftPos m (53 - d)) (d - 53) ez)) =
               Zpos m * 2 ^ (- ez)).
  { unfold SpecFloat.shl_align. destruct (ez - (d - 53)) as [|p|p] eqn:Hs; cbn [fst].
    - rewrite shiftPos_value by lia. do 2 f_equal. lia.
    - lia.
    - rewrite iter_xO_value, shiftPos_value by lia.
      rewrite <- Z.mul_assoc, <- Z.pow_add_r by lia. do 2 f_equal. lia. }
  rewrite Hv. destruct s; cbn [SpecFloat.cond_Zopp]; lia.
Qed.

Lemma binary_normalize_scaled (c k : Z) :
  Z.abs c < 2 ^ 53 -> 0 <= k ->
  SpecFloat.binary_normalize 53 1024 (c * 2 ^ k) (- k) false = toNumber c.
Proof.
  intros Hc Hk. assert (H2 : 0 < 2 ^ k) by (apply Z.pow_pos_nonneg; lia).
  destruct c as [|p|p].
  - reflexivity.
  - rewrite toNumber_pos by lia. rewrite <- shiftPos_value by lia.
    cbn [SpecFloat.binary_normalize]. apply binary_round_scaled; lia.
  - rewrite toNumber_neg by lia.
    replace (Zneg p * 2 ^ k) with (Zneg (shiftPos p k)).
    + cbn [SpecFloat.binary_normalize]. apply binary_round_scaled; lia.
    + rewrite <- Pos2Z.opp_pos, shiftPos_value by lia. lia.
Qed.

Lemma toNumber_nonzero (z : Z) :
  z <> 0 -> Z.abs z < 2 ^ 53 ->
  exists s m, toNumber z = canonical s m /\ z = signedValue s m /\ Zpos m < 2 ^ 53.
Proof.
  intros Hz Hb. destruct z as [|p|p]; [contradiction| |].
  - exists false, p. rewrite toNumber_pos by lia. repeat split. lia.
  - exists true, p. rewrite toNumber_neg by lia. repeat split. lia.
Qed.

Lemma canonical_add (sa sb : bool) (ma mb : positive) :
  Zpos ma < 2 ^ 53 -> Zpos mb < 2 ^ 53 ->
  Z.abs (signedValue sa ma + signedValue sb mb) < 2 ^ 53 ->
  numberAdd (canonical sa ma) (canonical sb mb) =
    toNumber (signedValue sa ma + signedValue sb mb).
Proof.
  intros Ha Hb Hc. unfold numberAdd, canonical. cbn [SpecFloat.SFadd].
  set (ez := Z.min (Zpos (SpecFloat.digits2_pos ma) - 53) (Zpos (SpecFloat.digits2_pos mb) - 53)).
  pose proof (digits_le_53 ma Ha). pose proof (digits_le_53 mb Hb).
  rewrite !aligned_mantissa by (subst ez; lia).
  rewrite <- Z.mul_add_distr_r.
  pose proof (binary_normalize_scaled (signedValue sa ma + signedValue sb mb) (- ez) Hc) as P.
  rewrite Z.opp_involutive in P. apply P. subst ez; lia.
Qed.


(** Adding and subtracting safe integers is exact. *)
Lemma numberAdd_exact (a b : Z) :
  Z.abs a < 2 ^ 53 -> Z.abs b < 2 ^ 53 -> Z.abs (a + b) < 2 ^ 53 ->
  numberAdd (toNumber a) (toNumber b) = toNumber (a + b).
Proof.
  intros Ha Hb Hc.
  destruct (Z.eq_dec a 0) as [->|Hna].
  - destruct (Z.eq_dec b 0) as [->|Hnb]; [reflexivity|]. rewrite Z.add_0_l.
    destruct (toNumber_nonzero b Hnb Hb) as (s & m & -> & _ & _). reflexivity.
  - destruct (toNumber_nonzero a Hna Ha) as (sa & ma & Hea & Hva & Hma).
    destruct (Z.eq_dec b 0) as [->|Hnb].
    + rewrite Z.add_0_r, Hea. reflexivity.
    + destruct (toNumber_nonzero b Hnb Hb) as (sb & mb & Heb & Hvb & Hmb).
      rewrite Hea, Heb, Hva, Hvb. apply canonical_add; try assumption.
      rewrite <- Hva, <- Hvb. exact Hc.
Qed.



(** ** Expenses *)

Lemma foldr_add_acc (l : list Z) (a : Z) :
  foldr Z.add a l = foldr Z.add 0 l + a.
Proof. induction l as [|b l IH]; cbn [foldr]; lia. Qed.

Lemma foldr_add_app (l1 l2 : list Z) :
  foldr Z.add 0 (l1 ++ l2) = foldr Z.add 0 l1 + foldr Z.add 0 l2.
Proof. rewrite foldr_app, foldr_add_acc. lia. Qed.

Lemma foldr_add_abs_nonneg {A : Type} (f : A -> Z) (l : list A) :
  0 <= foldr Z.add 0 (map (fun x => Z.abs (f x)) l).
Proof. induction l as [|x l IH]; cbn [map foldr]; lia. Qed.

(** A [reduce] that adds whole numbers is exact as long as the magnitudes
    sum to a safe integer. *)
Lemma fold_numberAdd_exact {A : Type} (f : A -> Z) (l : list A) (a : Z) :
  Z.abs a + foldr Z.add 0 (map (fun x => Z.abs (f x)) l) <= MAX_SAFE_INTEGER ->
  fold_left (fun sum x => numberAdd sum (toNumber (f x))) l (toNumber a) =
    toNumber (a + foldr Z.add 0 (map f l)).
Proof.
  unfold MAX_SAFE_INTEGER. revert a.
  induction l as [|x l IH]; intros a Hb; cbn [fold_left map foldr] in *.
  - f_equal. lia.
  - pose proof (foldr_add_abs_nonneg f l) as Hn.
    rewrite numberAdd_exact by lia. rewrite IH by lia. f_equal. lia.
Qed.

Lemma filter_magnitudes_le (p : Expense.t -> bool) (l : list Expense.t) :
  0 <= foldr Z.add 0 (map (fun e => Z.abs (Expense.amount e)) (List.filter p l))
    <= sumMagnitudes l.
Proof.
  unfold sumMagnitudes. induction l as [|e l IH]; cbn [List.filter map foldr]; [lia|].
  destruct (p e); cbn [map foldr]; lia.
Qed.


Lemma totalIncome_exact (expenses : list Expense.t) :
  sumMagnitudes expenses <= MAX_SAFE_INTEGER ->
  totalIncome expenses = toNumber (sumIncomes expenses).
Proof.
  intros Hb. unfold totalIncome.
  rewrite (fold_numberAdd_exact Expense.amount); [reflexivity|].
  pose proof (filter_magnitudes_le (fun e => 0 <? Expense.amount e) expenses).
  change (Z.abs 0) with 0. lia.
Qed.

Lemma totalExpense_exact (expenses : list Expense.t) :
  sumMagnitudes expenses <= MAX_SAFE_INTEGER ->
  totalExpense expenses = toNumber (sumOutlays expenses).
Proof.
  intros Hb. unfold totalExpense.
  rewrite (fold_numberAdd_exact (fun e => Z.abs (Expense.amount e))); [reflexivity|].
  pose proof (filter_magnitudes_le (fun e => Expense.amount e <? 0) expenses) as Hf.
  rewrite (map_ext (fun e => Z.abs (Z.abs (Expense.amount e)))
             (fun e => Z.abs (Expense.amount e)))
    by (intros e; apply Z.abs_idemp).
  change (Z.abs 0) with 0. lia.
Qed.

Lemma sumIncomes_sumOutlays (expenses : list Expense.t) :
  0 <= sumIncomes expenses /\
  0 <= sumOutlays expenses /\
  sumIncomes expenses - sumOutlays expenses = sumAmounts expenses /\
  sumIncomes expenses + sumOutlays expenses = sumMagnitudes expenses.
Proof.
  unfold sumIncomes, sumOutlays, sumAmounts, sumMagnitudes.
  induction expenses as [|e l IH]; cbn [List.filter map foldr]; [lia|].
  destruct (Z.ltb_spec 0 (Expense.amount e)); destruct (Z.ltb_spec (Expense.amount e) 0);
    cbn [map foldr]; lia.
Qed.


Lemma insertSorted_Permutation (cmp : Expense.t -> Expense.t -> Z) (x : Expense.t)
    (l : list Expense.t) :
  Permutation (insertSorted cmp x l) (x :: l).
Proof.
  induction l as [|y l IH]; cbn [insertSorted]; [reflexivity|].
  destruct (cmp x y <=? 0); [reflexivity|].
  rewrite IH. apply perm_swap.
Qed.

Lemma sort_Permutation (cmp : Expense.t -> Expense.t -> Z) (l : list Expense.t) :
  Permutation (sort cmp l) l.
Proof.
  induction l as [|x l IH]; [reflexivity|].
  unfold sort in *. cbn [foldr]. rewrite insertSorted_Permutation.
  constructor. exact IH.
Qed.


Lemma sumMagnitudes_Permutation (l1 l2 : list Expense.t) :
  Permutation l1 l2 -> sumMagnitudes l1 = sumMagnitudes l2.
Proof.
  unfold sumMagnitudes. induction 1; cbn [map foldr] in *; lia.
Qed.




(** ** Settings *)

Lemma getSettings_save (s : SettingsArg.t) (db : DB) :
  getSettings (snd (saveSettings s db)) =
    Some (Settings.mk 1 (SettingsArg.adminName s) (SettingsArg.blockNumber s)
            (SettingsArg.signatureType s) (SettingsArg.typedSignature s)
            (SettingsArg.drawnSignature s) (SettingsArg.uploadedSignature s)).
Proof. unfold getSettings, saveSettings. cbn. apply lookup_insert_eq. Qed.

Lemma loadSettings_stored (s : Settings.t) (db : DB) :
  getSettings db = Some s -> SettingsProvider_loadSettings db = (s, db).
Proof. unfold SettingsProvider_loadSettings. intros ->. reflexivity. Qed.

Lemma orEmpty_Some (s : string) : orEmpty (Some s) = s.
Proof.
  unfold orEmpty. destruct (String.eqb s "") eqn:He; [|reflexivity].
  apply String.eqb_eq in He. congruence.
Qed.

(** C7. [loadSettings] on a store that holds a settings record returns
    that record and leaves the store alone; on a store without one it
    stores the hard-coded default under id 1 (admin name "Admin", block
    "Society Office", a typed signature with the default text, empty drawn
    and uploaded payloads) and returns it; either way a settings record
    exists afterwards, the one returned. *)
Theorem C7_settings_lazy_default (db : DB) :
  let out := SettingsProvider_loadSettings db in
  match getSettings db with
  | Some s => out = (s, db)
  | None =>
      fst out = Settings.mk 1 "Admin" "Society Office" typed "For Neelkanth Society" "" "" /\
      snd out =
        mkDB (receipts db) (expenses db)
          (<[1 := storedDefaultSettings]> (settings db)) (auth db)
  end /\
  (settings db = ∅ -> fst out = storedDefaultSettings) /\
  getSettings (snd out) = Some (fst out).
Proof.
  intros out. subst out. unfold SettingsProvider_loadSettings.
  destruct (getSettings db) as [s|] eqn:Hs.
  - split; [reflexivity|]. split; [|exact Hs].
    intros He. unfold getSettings in Hs. rewrite He in Hs.
    rewrite lookup_empty in Hs. discriminate Hs.
  - split; [split; reflexivity|]. split; [reflexivity|].
    cbn [fst snd]. apply getSettings_save.
Qed.

(** C8. Saving the settings form over an existing settings record and
    loading again returns the stored record, in which the uploaded
    signature keeps its value, the drawn signature keeps its value unless
    a drawing is on the pad (which then replaces it), and the form's
    fields take their new values; an upload keeps every other field. *)
Theorem C8_settings_partial_save (data : SettingsFormData)
    (sigPad : option SignatureCanvas) (uploadedSignature : string)
    (s : Settings.t) (db : DB) :
  getSettings db = Some s ->
  let out := SettingsPage_onSubmit data sigPad (Some s) db in
  let saved := fst out in
  SettingsProvider_loadSettings (snd out) = (saved, snd out) /\
  Settings.uploadedSignature saved = Settings.uploadedSignature s /\
  Settings.drawnSignature saved =
    match sigPad with
    | Some pad => if isEmpty pad then Settings.drawnSignature s else toDataURL pad
    | None => Settings.drawnSignature s
    end /\
  Settings.adminName saved = form_adminName data /\
  Settings.blockNumber saved = form_blockNumber data /\
  Settings.signatureType saved = form_signatureType data /\
  Settings.typedSignature saved = form_typedSignature data /\
  Settings.id saved = 1 /\
  let out' := SettingsPage_handleFileUpload uploadedSignature (Some s) db in
  fst out' =
    Some (Settings.mk 1 (Settings.adminName s) (Settings.blockNumber s)
            (Settings.signatureType s) (Settings.typedSignature s)
            (Settings.drawnSignature s) uploadedSignature) /\
  getSettings (snd out') = fst out'.
Proof.
  intros Hs out saved. subst saved out.
  unfold SettingsPage_onSubmit, SettingsPage_handleFileUpload.
  cbn [fmap option_fmap option_map]. rewrite !orEmpty_Some.
  rewrite !(loadSettings_stored _ _ (getSettings_save _ _)).
  cbn [fst snd SettingsArg.adminName SettingsArg.blockNumber SettingsArg.signatureType
       SettingsArg.typedSignature SettingsArg.drawnSignature SettingsArg.uploadedSignature
       Settings.adminName Settings.blockNumber Settings.signatureType
       Settings.typedSignature Settings.drawnSignature Settings.uploadedSignature
       Settings.id].
  split.
  { apply loadSettings_stored. apply getSettings_save. }
  split; [reflexivity|]. split.
  { destruct sigPad as [pad|]; [destruct (isEmpty pad)|]; reflexivity. }
  repeat (split; [reflexivity|]).
  apply getSettings_save.
Qed.

Lemma C8_settings_partial_save_witness :
  Settings.uploadedSignature
    (fst (SettingsPage_onSubmit
            (mkSettingsFormData "Secretary" "B-2" drawn "Secretary, B-2") None
            (Some (Settings.mk 1 "Admin" "Society Office" typed "For Neelkanth Society"
                     "data:drawn" "data:uploaded"))
            (snd (saveSettings
                    (SettingsArg.mk None "Admin" "Society Office" typed
                       "For Neelkanth Society" "data:drawn" "data:uploaded")
                    emptyDB)))) = "data:uploaded".
Proof.
  destruct (C8_settings_partial_save
              (mkSettingsFormData "Secretary" "B-2" drawn "Secretary, B-2") None ""
              (Settings.mk 1 "Admin" "Society Office" typed "For Neelkanth Society"
                 "data:drawn" "data:uploaded")
              (snd (saveSettings
                      (SettingsArg.mk None "Admin" "Society Office" typed
                         "For Neelkanth Society" "data:drawn" "data:uploaded")
                      emptyDB)))
    as [_ [H _]].
  - reflexivity.
  - exact H.
Defined.

Lemma step_settingsSingleton (db : DB) (op : Op) :
  settingsSingleton db -> settingsSingleton (step db op).
Proof.
  intros Hs. destruct op as [u h|r|e|s]; cbn [step].
  - exact Hs.
  - unfold addReceipt. destruct (indexContains _ _); exact Hs.
  - exact Hs.
  - right. unfold saveSettings. cbn [snd settings Settings.id].
    eexists. split.
    + destruct Hs as [->|[r [-> _]]].
      * apply insert_empty.
      * apply insert_singleton_eq.
    + reflexivity.
Qed.

(** C10. [saveSettings] writes its record under key 1 and with [id] 1
    whatever [id] the argument carries; so in every reachable database the
    settings store holds no record under another key, every record in it
    has [id] 1, and it holds at most one record. *)
Theorem C10_settings_key_invariant :
  (forall (s : SettingsArg.t) (db : DB),
     fst (saveSettings s db) = 1 /\
     settings (snd (saveSettings s db)) =
       <[1 := Settings.mk 1 (SettingsArg.adminName s) (SettingsArg.blockNumber s)
                (SettingsArg.signatureType s) (SettingsArg.typedSignature s)
                (SettingsArg.drawnSignature s) (SettingsArg.uploadedSignature s)]>
         (settings db)) /\
  (forall db : DB, reachable db ->
     (forall (key : Z) (r : Settings.t),
        settings db !! key = Some r -> key = 1 /\ Settings.id r = 1) /\
     (size (settings db) <= 1)%nat).
Proof.
  split.
  - intros s db. split; reflexivity.
  - intros db Hr.
    assert (Hs : settingsSingleton db).
    { revert db Hr. apply reachable_invariant.
      - left. reflexivity.
      - apply step_settingsSingleton. }
    destruct Hs as [He|[r [He Hid]]]; rewrite He.
    + split.
      * intros key r Hl. rewrite lookup_empty in Hl. discriminate Hl.
      * rewrite map_size_empty. lia.
    + split.
      * intros key r' Hl. apply lookup_singleton_Some in Hl as [<- <-].
        split; [reflexivity | exact Hid].
      * rewrite map_size_singleton. lia.
Qed.

(** ** Further properties of the persistence layer *)

Lemma run_app (ops1 ops2 : list Op) (db : DB) :
  run (ops1 ++ ops2) db = run ops2 (run ops1 db).
Proof. unfold run. apply fold_left_app. Qed.

Lemma step_receipts_cases (db : DB) (op : Op) :
  receipts (step db op) = receipts db \/
  exists r,
    op = OpAddReceipt r /\
    indexContains (NewReceipt.receiptNumber r) (getAllReceipts db) = false /\
    receipts (step db op) =
      mkAutoStore (getAllReceipts db ++ [withId (keygen (receipts db)) r])
        (keygen (receipts db) + 1).
Proof.
  destruct op as [u h|r|e|s]; try (left; reflexivity).
  cbn [step].
  destruct (indexContains (NewReceipt.receiptNumber r) (getAllReceipts db)) eqn:Hi.
  - rewrite (addReceipt_rejects _ _ Hi). left. reflexivity.
  - rewrite (addReceipt_accepts _ _ Hi). right. exists r. auto.
Qed.

Lemma step_expenses_cases (db : DB) (op : Op) :
  expenses (step db op) = expenses db \/
  exists e,
    op = OpAddExpense e /\
    expenses (step db op) =
      mkAutoStore
        (getAllExpenses db ++
           [Expense.mk (keygen (expenses db)) (NewExpense.date e)
              (NewExpense.description e) (NewExpense.amount e)])
        (keygen (expenses db) + 1).
Proof.
  destruct op as [u h|r|e|s]; try (left; reflexivity).
  - cbn [step]. unfold addReceipt. destruct (indexContains _ _); left; reflexivity.
  - right. exists e. split; reflexivity.
Qed.

(** X1. The receipts and the expenses stores only grow at the end:
    whatever sequence of writes runs, the records stored before are still
    there afterwards, unchanged and in the same order, followed by the new
    ones. *)
Theorem X1_stores_append_only (ops : list Op) (db : DB) :
  (exists added, getAllReceipts (run ops db) = getAllReceipts db ++ added) /\
  (exists added, getAllExpenses (run ops db) = getAllExpenses db ++ added).
Proof.
  revert db. induction ops as [|op ops IH]; intros db.
  - split; exists []; cbn; rewrite app_nil_r; reflexivity.
  - cbn [run fold_left]. destruct (IH (step db op)) as [[rs Hr] [es He]].
    unfold run in Hr, He. rewrite Hr, He. unfold getAllReceipts, getAllExpenses. split.
    + destruct (step_receipts_cases db op) as [->|[r [_ [_ ->]]]].
      * exists rs. reflexivity.
      * cbn [records]. eexists. rewrite <- app_assoc. reflexivity.
    + destruct (step_expenses_cases db op) as [->|[e [_ ->]]].
      * exists es. reflexivity.
      * cbn [records]. eexists. rewrite <- app_assoc. reflexivity.
Qed.

Lemma StronglySorted_snoc (l : list Z) (x : Z) :
  StronglySorted Z.lt l -> Forall (fun y => y < x) l -> StronglySorted Z.lt (l ++ [x]).
Proof.
  induction 1 as [|a l Hs IH Ha]; intros Hx; cbn [app].
  - repeat constructor.
  - inversion Hx as [|? ? Hax Hlx]; subst. constructor.
    + apply IH. exact Hlx.
    + apply Forall_app. split; [exact Ha | repeat constructor; exact Hax].
Qed.

Lemma step_receiptKeysOrdered (db : DB) (op : Op) :
  receiptKeysOrdered db -> receiptKeysOrdered (step db op).
Proof.
  intros (Hs & Hb & H1). unfold receiptKeysOrdered, getAllReceipts in *.
  destruct (step_receipts_cases db op) as [->|[r [_ [_ ->]]]]; [repeat split; assumption|].
  cbn [records keygen]. unfold getAllReceipts. rewrite map_app. cbn [map withId Receipt.id].
  split; [|split].
  - apply StronglySorted_snoc; [exact Hs|].
    eapply List.Forall_impl; [|exact Hb]. cbn beta. intros k Hk. lia.
  - apply Forall_app. split.
    + eapply List.Forall_impl; [|exact Hb]. cbn beta. intros k Hk. lia.
    + repeat constructor; lia.
  - lia.
Qed.

Lemma reachable_receiptKeysOrdered (db : DB) :
  reachable db -> receiptKeysOrdered db.
Proof.
  revert db. apply reachable_invariant.
  - repeat split; try constructor. cbn. lia.
  - apply step_receiptKeysOrdered.
Qed.

Lemma StronglySorted_lt_NoDup (l : list Z) : StronglySorted Z.lt l -> List.NoDup l.
Proof.
  induction 1 as [|a l Hs IH Ha]; constructor; [|exact IH].
  intros Hin. rewrite List.Forall_forall in Ha. specialize (Ha a Hin). lia.
Qed.

(** X2. Receipt keys are never reused: in a reachable database the keys
    of the stored receipts are positive, pairwise different and ascend in
    storage order, and the key a successful [addReceipt] returns is larger
    than every key stored before. *)
Theorem X2_receipt_keys_never_reused (receipt : NewReceipt.t) (db db' : DB) (key : Z) :
  reachable db ->
  addReceipt receipt db = inr (key, db') ->
  Forall (fun r => 1 <= Receipt.id r < key) (getAllReceipts db) /\
  1 <= key /\
  StronglySorted Z.lt (map Receipt.id (getAllReceipts db')) /\
  List.NoDup (map Receipt.id (getAllReceipts db')).
Proof.
  intros Hr Hadd.
  pose proof (reachable_receiptKeysOrdered db Hr) as (Hs & Hb & H1).
  assert (Hr' : reachable db').
  { replace db' with (step db (OpAddReceipt receipt)).
    - apply reachable_step. exact Hr.
    - cbn [step]. rewrite Hadd. reflexivity. }
  pose proof (reachable_receiptKeysOrdered db' Hr') as (Hs' & _ & _).
  unfold addReceipt in Hadd. destruct (indexContains _ _); [discriminate|].
  injection Hadd as <- _.
  split; [|split; [exact H1|split; [exact Hs'|]]].
  - rewrite List.Forall_map in Hb. exact Hb.
  - apply StronglySorted_lt_NoDup. exact Hs'.
Qed.

Lemma X2_receipt_keys_never_reused_witness :
  Forall (fun r => 1 <= Receipt.id r < 3) (getAllReceipts sampleDB) /\
  1 <= 3 /\
  StronglySorted Z.lt
    (map Receipt.id
       (getAllReceipts
          (step sampleDB
             (OpAddReceipt (NewReceipt.mk "NSM-0003" "C" "15" 100 "2024-02-01" "2024-02" Cheque))))) /\
  List.NoDup
    (map Receipt.id
       (getAllReceipts
          (step sampleDB
             (OpAddReceipt (NewReceipt.mk "NSM-0003" "C" "15" 100 "2024-02-01" "2024-02" Cheque))))).
Proof.
  apply (X2_receipt_keys_never_reused
           (NewReceipt.mk "NSM-0003" "C" "15" 100 "2024-02-01" "2024-02" Cheque) sampleDB).
  - eexists. reflexivity.
  - reflexivity.
Defined.

Lemma find_snoc {A : Type} (f : A -> bool) (l : list A) (x : A) :
  find f (l ++ [x]) =
    match find f l with
    | Some y => Some y
    | None => if f x then Some x else None
    end.
Proof.
  induction l as [|a l IH]; cbn [app find]; [reflexivity|].
  destruct (f a); [reflexivity | exact IH].
Qed.

Lemma find_key_above (l : list Receipt.t) (key : Z) :
  Forall (fun r => Receipt.id r < key) l ->
  find (fun r => Receipt.id r =? key) l = None.
Proof.
  induction 1 as [|r l Hr _ IH]; cbn [find]; [reflexivity|].
  replace (Receipt.id r =? key) with false by (symmetry; apply Z.eqb_neq; lia).
  exact IH.
Qed.

Lemma addReceipt_keys_below (receipt : NewReceipt.t) (db db' : DB) (key : Z) :
  reachable db ->
  addReceipt receipt db = inr (key, db') ->
  key = keygen (receipts db) /\
  getAllReceipts db' = getAllReceipts db ++ [withId key receipt] /\
  Forall (fun r => Receipt.id r < key) (getAllReceipts db).
Proof.
  intros Hr Hadd.
  pose proof (reachable_receiptKeysOrdered db Hr) as (_ & Hb & _).
  unfold addReceipt in Hadd. destruct (indexContains _ _); [discriminate|].
  injection Hadd as <- <-. split; [reflexivity|]. split; [reflexivity|].
  rewrite List.Forall_map in Hb.
  eapply List.Forall_impl; [|exact Hb]. cbn beta. intros r H. lia.
Qed.

(** X3. Storing and looking up receipts by key round-trips: in a reachable
    database the key returned by a successful [addReceipt] was free
    before, afterwards [getReceipt] at that key returns the record given,
    with the key as its [id], and every other key reads as before. *)
Theorem X3_getReceipt_after_add (receipt : NewReceipt.t) (db db' : DB) (key : Z) :
  reachable db ->
  addReceipt receipt db = inr (key, db') ->
  getReceipt key db = None /\
  getReceipt key db' = Some (withId key receipt) /\
  forall other : Z, other <> key -> getReceipt other db' = getReceipt other db.
Proof.
  intros Hr Hadd.
  destruct (addReceipt_keys_below receipt db db' key Hr Hadd) as (_ & Hall & Hb).
  unfold getReceipt, getAllReceipts in *. rewrite Hall.
  split; [apply find_key_above; exact Hb|]. split.
  - rewrite find_snoc, (find_key_above _ _ Hb). cbn [withId Receipt.id].
    rewrite Z.eqb_refl. reflexivity.
  - intros other Hne. rewrite find_snoc.
    destruct (find _ (records (receipts db))); [reflexivity|].
    cbn [withId Receipt.id].
    replace (key =? other) with false by (symmetry; apply Z.eqb_neq; lia).
    reflexivity.
Qed.

Lemma X3_getReceipt_after_add_witness :
  getReceipt 3 sampleDB = None /\
  getReceipt 3
    (step sampleDB
       (OpAddReceipt (NewReceipt.mk "NSM-0003" "C" "15" 100 "2024-02-01" "2024-02" Cheque))) =
    Some (Receipt.mk 3 "NSM-0003" "C" "15" 100 "2024-02-01" "2024-02" Cheque) /\
  forall other : Z, other <> 3 ->
    getReceipt other
      (step sampleDB
         (OpAddReceipt (NewReceipt.mk "NSM-0003" "C" "15" 100 "2024-02-01" "2024-02" Cheque))) =
    getReceipt other sampleDB.
Proof.
  apply (X3_getReceipt_after_add
           (NewReceipt.mk "NSM-0003" "C" "15" 100 "2024-02-01" "2024-02" Cheque) sampleDB).
  - eexists. reflexivity.
  - reflexivity.
Defined.

Lemma find_by_unique_key (l : list Receipt.t) (r : Receipt.t) :
  List.NoDup (map Receipt.id l) ->
  In r l ->
  find (fun r0 => Receipt.id r0 =? Receipt.id r) l = Some r.
Proof.
  induction l as [|a l IH]; intros Hnd Hin; [destruct Hin|].
  cbn [map] in Hnd. inversion Hnd as [|? ? Hna Hnd']; subst.
  cbn [find]. destruct Hin as [->|Hin].
  - rewrite Z.eqb_refl. reflexivity.
  - destruct (Receipt.id a =? Receipt.id r) eqn:He.
    + apply Z.eqb_eq in He. exfalso. apply Hna. rewrite He.
      apply in_map. exact Hin.
    + apply IH; assumption.
Qed.

(** X4. In a reachable database [getReceipt] is exact: it returns a
    record for a key precisely when that record is stored with this [id],
    so every stored receipt is found under its own [id] and a key that no
    stored receipt carries, such as one below 1, gives nothing. *)
Theorem X4_getReceipt_exact (db : DB) (key : Z) :
  reachable db ->
  (forall r : Receipt.t,
     getReceipt key db = Some r <-> In r (getAllReceipts db) /\ Receipt.id r = key) /\
  (key < 1 -> getReceipt key db = None) /\
  (keygen (receipts db) <= key -> getReceipt key db = None).
Proof.
  intros Hr.
  pose proof (reachable_receiptKeysOrdered db Hr) as (Hs & Hb & _).
  assert (Hex : forall r : Receipt.t,
            getReceipt key db = Some r <-> In r (getAllReceipts db) /\ Receipt.id r = key).
  { intros r. unfold getReceipt, getAllReceipts. split.
    - intros Hf. apply find_some in Hf as [Hin He].
      apply Z.eqb_eq in He. split; assumption.
    - intros [Hin <-]. apply find_by_unique_key; [|exact Hin].
      apply StronglySorted_lt_NoDup. exact Hs. }
  split; [exact Hex|].
  rewrite List.Forall_map, List.Forall_forall in Hb.
  split; intros Hk; destruct (getReceipt key db) as [r|]; try reflexivity;
    destruct (proj1 (Hex r) eq_refl) as [Hin Hid]; specialize (Hb r Hin);
    unfold getAllReceipts in *; lia.
Qed.

Lemma X4_getReceipt_exact_witness :
  (forall r : Receipt.t,
     getReceipt 2 sampleDB = Some r <-> In r (getAllReceipts sampleDB) /\ Receipt.id r = 2) /\
  (2 < 1 -> getReceipt 2 sampleDB = None) /\
  (keygen (receipts sampleDB) <= 2 -> getReceipt 2 sampleDB = None).
Proof.
  apply (X4_getReceipt_exact sampleDB 2). eexists. reflexivity.
Defined.

Lemma step_expenseKeysSequential (db : DB) (op : Op) :
  expenseKeysSequential db -> expenseKeysSequential (step db op).
Proof.
  intros [Hm Hk]. unfold expenseKeysSequential, getAllExpenses in *.
  destruct (step_expenses_cases db op) as [->|[e [_ ->]]]; [split; assumption|].
  cbn [records keygen]. unfold getAllExpenses.
  rewrite map_app, length_app. cbn [map length Expense.id].
  rewrite Nat.add_1_r, seq_S, map_app, Hm, Hk. cbn [map].
  split; [|lia]. do 3 f_equal. lia.
Qed.

(** X5. Expense keys count the expenses: [addExpense] never fails, and in
    a reachable database the stored expenses carry the keys 1, 2, ... in
    storage order, so the next expense gets the number of stored expenses
    plus one as its key and is appended with the fields given. *)
Theorem X5_expense_keys_sequential (expense : NewExpense.t) (db : DB) :
  reachable db ->
  map Expense.id (getAllExpenses db) =
    map Z.of_nat (seq 1 (length (getAllExpenses db))) /\
  fst (addExpense expense db) = Z.of_nat (length (getAllExpenses db)) + 1 /\
  getAllExpenses (snd (addExpense expense db)) =
    getAllExpenses db ++
      [Expense.mk (Z.of_nat (length (getAllExpenses db)) + 1) (NewExpense.date expense)
         (NewExpense.description expense) (NewExpense.amount expense)].
Proof.
  intros Hr.
  assert (Hs : expenseKeysSequential db).
  { revert db Hr. apply reachable_invariant.
    - split; reflexivity.
    - apply step_expenseKeysSequential. }
  destruct Hs as [Hm Hk]. split; [exact Hm|].
  unfold addExpense, getAllExpenses in *. cbn [fst snd expenses records].
  rewrite Hk. split; reflexivity.
Qed.

Lemma X5_expense_keys_sequential_witness :
  map Expense.id (getAllExpenses sampleDB) =
    map Z.of_nat (seq 1 (length (getAllExpenses sampleDB))) /\
  fst (addExpense (NewExpense.mk "2024-01-09" "Rent" 900) sampleDB) =
    Z.of_nat (length (getAllExpenses sampleDB)) + 1 /\
  getAllExpenses (snd (addExpense (NewExpense.mk "2024-01-09" "Rent" 900) sampleDB)) =
    getAllExpenses sampleDB ++
      [Expense.mk (Z.of_nat (length (getAllExpenses sampleDB)) + 1) "2024-01-09" "Rent" 900].
Proof.
  apply (X5_expense_keys_sequential (NewExpense.mk "2024-01-09" "Rent" 900) sampleDB).
  eexists. reflexivity.
Defined.

Lemma onSubmit_stale_rejected (count : nat) (data : ReceiptFormData.t) (db : DB) :
  numbered db ->
  (count < length (getAllReceipts db))%nat ->
  NewReceiptPage_onSubmit count data db = inl ConstraintViolation.
Proof.
  intros [_ Hn] Hlt. unfold NewReceiptPage_onSubmit.
  apply addReceipt_rejects. cbn [NewReceipt.receiptNumber].
  apply indexContains_In. rewrite Hn. apply in_map. apply in_seq. lia.
Qed.

(** X6. The receipt form uses the count it read when it was mounted. On
    a store filled through the form, a submit with a count that has
    become stale is rejected with ConstraintViolation; in particular, of
    two forms mounted on the same store the one submitted first succeeds
    and the other is then rejected, whatever its fields. *)
Theorem X6_stale_count_rejected (count : nat) (data1 data2 : ReceiptFormData.t) (db : DB) :
  numbered db ->
  ((count < length (getAllReceipts db))%nat ->
   NewReceiptPage_onSubmit count data1 db = inl ConstraintViolation) /\
  exists key db1,
    NewReceiptPage_onSubmit (NewReceiptPage_fetchLastReceipt db) data1 db = inr (key, db1) /\
    NewReceiptPage_onSubmit (NewReceiptPage_fetchLastReceipt db) data2 db1 =
      inl ConstraintViolation.
Proof.
  intros Hn. split.
  - intros Hlt. apply onSubmit_stale_rejected; assumption.
  - destruct (createReceipt_numbered data1 db Hn) as (db1 & Hc & Hall & Hn1).
    eexists. exists db1. split; [exact Hc|].
    apply onSubmit_stale_rejected; [exact Hn1|].
    unfold NewReceiptPage_fetchLastReceipt. rewrite Hall, length_app. cbn [length]. lia.
Qed.

Lemma X6_stale_count_rejected_witness :
  ((0 < length (getAllReceipts (createAll [scenarioData] emptyDB)))%nat ->
   NewReceiptPage_onSubmit 0 scenarioData (createAll [scenarioData] emptyDB) =
     inl ConstraintViolation) /\
  exists key db1,
    NewReceiptPage_onSubmit
      (NewReceiptPage_fetchLastReceipt (createAll [scenarioData] emptyDB))
      scenarioData (createAll [scenarioData] emptyDB) = inr (key, db1) /\
    NewReceiptPage_onSubmit
      (NewReceiptPage_fetchLastReceipt (createAll [scenarioData] emptyDB))
      scenarioData db1 = inl ConstraintViolation.
Proof.
  apply (X6_stale_count_rejected 0 scenarioData scenarioData
           (createAll [scenarioData] emptyDB)).
  split; reflexivity.
Defined.

Lemma step_authKeyedByUsername (db : DB) (op : Op) :
  authKeyedByUsername db -> authKeyedByUsername (step db op).
Proof.
  intros Ha. destruct op as [u h|r|e|s]; cbn [step]; try exact Ha.
  - intros u' c. unfold saveAuthCredentials. cbn [snd auth Credential.username].
    rewrite lookup_insert. case_decide as Hu.
    + intros [= <-]. cbn. exact Hu.
    + apply Ha.
  - unfold addReceipt. destruct (indexContains _ _); exact Ha.
Qed.

Lemma step_credential_kept (db : DB) (op : Op) (u : string) :
  is_Some (getAuthCredentials u db) -> is_Some (getAuthCredentials u (step db op)).
Proof.
  intros Hs. destruct op as [u' h|r|e|s]; cbn [step]; try exact Hs.
  - unfold getAuthCredentials, saveAuthCredentials in *. cbn [snd auth Credential.username].
    rewrite lookup_insert. case_decide; [eauto | exact Hs].
  - unfold addReceipt. destruct (indexContains _ _); exact Hs.
Qed.

(** X7. The credential store: [saveAuthCredentials] followed by
    [getAuthCredentials] for the same user returns the name and hash
    just saved and leaves every other user's credential as it was; no
    write of the layer ever removes a credential; and in a reachable
    database every credential is stored under its own user name. *)
Theorem X7_credentials_store (username passwordHash : string) (db : DB) :
  getAuthCredentials username (snd (saveAuthCredentials username passwordHash db)) =
    Some (Credential.mk username passwordHash) /\
  (forall other : string, other <> username ->
     getAuthCredentials other (snd (saveAuthCredentials username passwordHash db)) =
       getAuthCredentials other db) /\
  (forall (ops : list Op) (u : string),
     is_Some (getAuthCredentials u db) -> is_Some (getAuthCredentials u (run ops db))) /\
  (reachable db ->
   forall (u : string) (c : Credential.t),
     getAuthCredentials u db = Some c -> Credential.username c = u).
Proof.
  split; [apply getAuthCredentials_save|]. split; [|split].
  - intros other Hne. unfold getAuthCredentials, saveAuthCredentials.
    cbn [snd auth Credential.username]. apply lookup_insert_ne. congruence.
  - intros ops u. revert db. induction ops as [|op ops IH]; intros db Hs; [exact Hs|].
    cbn [run fold_left]. apply IH. apply step_credential_kept. exact Hs.
  - intros Hr. revert db Hr. apply (reachable_invariant authKeyedByUsername).
    + intros u c Hl. cbn in Hl. rewrite lookup_empty in Hl. discriminate Hl.
    + apply step_authKeyedByUsername.
Qed.

(** ** Sessions and the login page *)

Lemma checkAuth_state (digest : list byte -> list byte) (st : AuthState) (db : DB) :
  fst (AuthProvider_checkAuth digest st db) =
    if decide (sessionStorage st !! "isAuthenticated" = Some "true")
    then mkAuthState true (sessionStorage st)
    else st.
Proof.
  unfold AuthProvider_checkAuth.
  destruct (getAuthCredentials "admin" db); reflexivity.
Qed.

Lemma login_state (digest : list byte -> list byte) (user pass : string)
    (st : AuthState) (db : DB) :
  snd (AuthProvider_login digest user pass st db) =
    if fst (AuthProvider_login digest user pass st db)
    then mkAuthState true (<["isAuthenticated" := "true"]> (sessionStorage st))
    else st.
Proof.
  unfold AuthProvider_login.
  destruct (String.eqb user "admin"); [|reflexivity].
  destruct (getAuthCredentials "admin" db); [|reflexivity].
  destruct (String.eqb _ _); reflexivity.
Qed.

(** X8. Sessions and reloads. After a successful [login] the protected
    route renders its children. A reload starts the provider again at
    [useState(false)]: the first render of a protected route then
    redirects to "/login", whatever [sessionStorage] holds; [checkAuth],
    the mount effect, restores the flag from [sessionStorage] only
    afterwards, so that a protected route rendered from then on shows its
    children again. After [logout] the protected route redirects to
    "/login", and after a reload it does so before and after
    [checkAuth]. *)
Theorem X8_session_and_reload (digest : list byte -> list byte)
    (user pass : string) (st : AuthState) (db : DB) :
  fst (AuthProvider_login digest user pass st db) = true ->
  let st1 := snd (AuthProvider_login digest user pass st db) in
  ProtectedRoute st1 = Children /\
  ProtectedRoute (reloadAuth st1) = Navigate "/login" /\
  fst (AuthProvider_checkAuth digest (reloadAuth st1) db) = st1 /\
  ProtectedRoute (fst (AuthProvider_checkAuth digest (reloadAuth st1) db)) = Children /\
  ProtectedRoute (AuthProvider_logout st1) = Navigate "/login" /\
  ProtectedRoute (reloadAuth (AuthProvider_logout st1)) = Navigate "/login" /\
  ProtectedRoute
    (fst (AuthProvider_checkAuth digest (reloadAuth (AuthProvider_logout st1)) db)) =
    Navigate "/login".
Proof.
  intros Hl st1. subst st1. rewrite login_state, Hl. rewrite !checkAuth_state.
  cbn [reloadAuth AuthProvider_logout sessionStorage].
  rewrite lookup_insert_eq, lookup_delete_eq.
  destruct (decide (Some "true" = Some "true")) as [_|Hn]; [|contradiction].
  destruct (decide (None = Some "true")) as [Hn|_]; [discriminate|].
  repeat split; reflexivity.
Qed.

Lemma X8_session_and_reload_witness :
  ProtectedRoute (snd (AuthProvider_login plainDigest "admin" "google" noSession sampleDB)) =
    Children /\
  ProtectedRoute
    (reloadAuth (snd (AuthProvider_login plainDigest "admin" "google" noSession sampleDB))) =
    Navigate "/login" /\
  fst (AuthProvider_checkAuth plainDigest
         (reloadAuth (snd (AuthProvider_login plainDigest "admin" "google" noSession sampleDB)))
         sampleDB) =
    snd (AuthProvider_login plainDigest "admin" "google" noSession sampleDB) /\
  ProtectedRoute
    (fst (AuthProvider_checkAuth plainDigest
            (reloadAuth (snd (AuthProvider_login plainDigest "admin" "google" noSession sampleDB)))
            sampleDB)) = Children /\
  ProtectedRoute
    (AuthProvider_logout
       (snd (AuthProvider_login plainDigest "admin" "google" noSession sampleDB))) =
    Navigate "/login" /\
  ProtectedRoute
    (reloadAuth
       (AuthProvider_logout
          (snd (AuthProvider_login plainDigest "admin" "google" noSession sampleDB)))) =
    Navigate "/login" /\
  ProtectedRoute
    (fst (AuthProvider_checkAuth plainDigest
            (reloadAuth
               (AuthProvider_logout
                  (snd (AuthProvider_login plainDigest "admin" "google" noSession sampleDB))))
            sampleDB)) = Navigate "/login".
Proof.
  apply (X8_session_and_reload plainDigest "admin" "google" noSession sampleDB).
  vm_compute. reflexivity.
Defined.

(** X9. The login page: [handleLogin] navigates to "/" exactly when the
    user is "admin" and the password's digest is the stored one, and then
    clears the error and marks the session authenticated; otherwise it
    stays on the page, shows "Invalid credentials" and leaves the
    provider's state and the session storage untouched. *)
Theorem X9_handleLogin (digest : list byte -> list byte) (username password : string)
    (st : AuthState) (db : DB) :
  let out := LoginPage_handleLogin digest username password st db in
  (navigated out = Some "/" <->
   username = "admin" /\
   exists credentials,
     getAuthCredentials "admin" db = Some credentials /\
     sha256 digest password = Credential.passwordHash credentials) /\
  match navigated out with
  | Some _ =>
      loginError out = "" /\
      isAuthenticated (loginState out) = true /\
      sessionStorage (loginState out) !! "isAuthenticated" = Some "true"
  | None => loginError out = "Invalid credentials" /\ loginState out = st
  end.
Proof.
  intros out. subst out. unfold LoginPage_handleLogin.
  rewrite login_state. rewrite <- (login_true_iff digest username password st db).
  destruct (fst (AuthProvider_login digest username password st db));
    cbn [navigated loginError loginState isAuthenticated sessionStorage].
  - split; [split; reflexivity|]. split; [reflexivity|]. split; [reflexivity|].
    apply lookup_insert_eq.
  - split; [split; discriminate|]. split; reflexivity.
Qed.

(** X10. After the first start on a database without a credential, the
    default password logs in: [login] as "admin" succeeds with "google",
    and with another password exactly when its digest is that of
    "google". *)
Theorem X10_default_password_after_first_start (digest : list byte -> list byte)
    (pass : string) (st : AuthState) (db : DB) :
  getAuthCredentials "admin" db = None ->
  let started := AuthProvider_checkAuth digest st db in
  fst (AuthProvider_login digest "admin" "google" (fst started) (snd started)) = true /\
  (fst (AuthProvider_login digest "admin" pass (fst started) (snd started)) = true <->
   sha256 digest pass = sha256 digest "google").
Proof.
  intros Hn started. subst started.
  assert (Hc : getAuthCredentials "admin" (snd (AuthProvider_checkAuth digest st db)) =
               Some (Credential.mk "admin" (sha256 digest "google"))).
  { rewrite checkAuth_db, Hn. apply getAuthCredentials_save. }
  split.
  - apply login_true_iff. split; [reflexivity|]. eexists. split; [exact Hc | reflexivity].
  - rewrite login_true_iff. split.
    + intros [_ [c [Hc' Hh]]]. rewrite Hc in Hc'. injection Hc' as <-. exact Hh.
    + intros Hh. split; [reflexivity|]. eexists. split; [exact Hc | exact Hh].
Qed.

Lemma X10_default_password_after_first_start_witness :
  fst (AuthProvider_login plainDigest "admin" "google"
         (fst (AuthProvider_checkAuth plainDigest noSession emptyDB))
         (snd (AuthProvider_checkAuth plainDigest noSession emptyDB))) = true /\
  (fst (AuthProvider_login plainDigest "admin" "secret1"
          (fst (AuthProvider_checkAuth plainDigest noSession emptyDB))
          (snd (AuthProvider_checkAuth plainDigest noSession emptyDB))) = true <->
   sha256 plainDigest "secret1" = sha256 plainDigest "google").
Proof.
  apply (X10_default_password_after_first_start plainDigest "secret1" noSession emptyDB).
  reflexivity.
Defined.

(** ** The digest as a string *)

Lemma parseHex_byte (b : byte) (s : string) :
  parseHex (padStart 2 "0" (toString16 (Byte.to_N b)) +:+ s) =
    match parseHex s with
    | Some bytes => Some (b :: bytes)
    | None => None
    end.
Proof. destruct b; reflexivity. Qed.

Lemma length_hex_byte (b : byte) (s : string) :
  String.length (padStart 2 "0" (toString16 (Byte.to_N b)) +:+ s) = S (S (String.length s)).
Proof. destruct b; reflexivity. Qed.

Lemma append_empty_r (s : string) : s +:+ "" = s.
Proof.
  induction s as [|c s IH]; [reflexivity|].
  change (String c (s +:+ "") = String c s). rewrite IH. reflexivity.
Qed.

Lemma concat_cons (x : string) (xs : list string) :
  String.concat "" (x :: xs) = x +:+ String.concat "" xs.
Proof.
  destruct xs as [|y ys]; [|reflexivity].
  change (String.concat "" [x]) with x. change (String.concat "" []) with "".
  symmetry. apply append_empty_r.
Qed.

Lemma parseHex_hex (bytes : list byte) :
  parseHex
    (String.concat "" (map (fun b => padStart 2 "0" (toString16 (Byte.to_N b))) bytes)) =
    Some bytes /\
  String.length
    (String.concat "" (map (fun b => padStart 2 "0" (toString16 (Byte.to_N b))) bytes)) =
    (2 * length bytes)%nat.
Proof.
  induction bytes as [|b bytes [IHp IHl]]; [split; reflexivity|].
  cbn [map length]. rewrite concat_cons, parseHex_byte, length_hex_byte, IHp, IHl.
  split; [reflexivity | lia].
Qed.

(** X11. [sha256] writes the digest as two hexadecimal digits per byte:
    the string is twice as long as the digest, reading the digit pairs
    back gives the digest's bytes, and so two messages have the same
    [sha256] string exactly when the platform digest gives them the same
    bytes. *)
Theorem X11_sha256_hex_round_trip (digest : list byte -> list byte) (m1 m2 : string) :
  String.length (sha256 digest m1) = (2 * length (digest (list_byte_of_string m1)))%nat /\
  parseHex (sha256 digest m1) = Some (digest (list_byte_of_string m1)) /\
  (sha256 digest m1 = sha256 digest m2 <->
   digest (list_byte_of_string m1) = digest (list_byte_of_string m2)).
Proof.
  unfold sha256.
  destruct (parseHex_hex (digest (list_byte_of_string m1))) as [Hp1 Hl1].
  destruct (parseHex_hex (digest (list_byte_of_string m2))) as [Hp2 _].
  split; [exact Hl1|]. split; [exact Hp1|]. split.
  - intros He. rewrite He in Hp1. rewrite Hp1 in Hp2. injection Hp2 as ->. reflexivity.
  - intros ->. reflexivity.
Qed.

(** ** Expense and receipt lists *)

Lemma insertSorted_Forall (P : Expense.t -> Prop) (cmp : Expense.t -> Expense.t -> Z)
    (x : Expense.t) (l : list Expense.t) :
  P x -> Forall P l -> Forall P (insertSorted cmp x l).
Proof.
  intros Hx Hl. induction Hl as [|y l Hy Hl IH]; cbn [insertSorted].
  - repeat constructor. exact Hx.
  - destruct (cmp x y <=? 0); repeat constructor; assumption.
Qed.

Lemma insertSorted_sorted (getTime : string -> Z) (x : Expense.t) (l : list Expense.t) :
  StronglySorted (fun a b => getTime (Expense.date b) <= getTime (Expense.date a)) l ->
  StronglySorted (fun a b => getTime (Expense.date b) <= getTime (Expense.date a))
    (insertSorted (byDateDesc getTime) x l).
Proof.
  induction 1 as [|y l Hs IH Hy]; cbn [insertSorted].
  - repeat constructor.
  - unfold byDateDesc at 1. destruct (Z.leb_spec (getTime (Expense.date y) - getTime (Expense.date x)) 0) as [Hle|Hgt].
    + constructor; [constructor; assumption|].
      constructor; [lia|].
      eapply List.Forall_impl; [|exact Hy]. cbn beta. intros z Hz. lia.
    + constructor; [exact IH|].
      apply insertSorted_Forall; [lia | exact Hy].
Qed.

Lemma insertSorted_filter (getTime : string -> Z) (t : Z) (x : Expense.t)
    (l : list Expense.t) :
  List.filter (fun e => getTime (Expense.date e) =? t)
    (insertSorted (byDateDesc getTime) x l) =
  List.filter (fun e => getTime (Expense.date e) =? t) (x :: l).
Proof.
  induction l as [|y l IH]; cbn [insertSorted]; [reflexivity|].
  unfold byDateDesc at 1.
  destruct (Z.leb_spec (getTime (Expense.date y) - getTime (Expense.date x)) 0) as [Hle|Hgt];
    [reflexivity|].
  cbn [List.filter] in *. rewrite IH.
  destruct (Z.eqb_spec (getTime (Expense.date x)) t) as [Hx|Hx]; [|reflexivity].
  replace (getTime (Expense.date y) =? t) with false by (symmetry; apply Z.eqb_neq; lia).
  reflexivity.
Qed.

(** X12. [loadExpenses] shows the stored expenses, each exactly once,
    latest date first, and expenses of the same date in the order they
    were stored. *)
Theorem X12_loadExpenses_sorted (getTime : string -> Z) (db : DB) :
  Permutation (ExpensesPage_loadExpenses getTime db) (getAllExpenses db) /\
  StronglySorted (fun a b => getTime (Expense.date b) <= getTime (Expense.date a))
    (ExpensesPage_loadExpenses getTime db) /\
  forall t : Z,
    List.filter (fun e => getTime (Expense.date e) =? t) (ExpensesPage_loadExpenses getTime db) =
    List.filter (fun e => getTime (Expense.date e) =? t) (getAllExpenses db).
Proof.
  unfold ExpensesPage_loadExpenses. split; [apply sort_Permutation|].
  generalize (getAllExpenses db). intros l. unfold sort. split.
  - induction l as [|x l IH]; cbn [foldr]; [constructor|].
    apply insertSorted_sorted. exact IH.
  - intros t. induction l as [|x l IH]; cbn [foldr]; [reflexivity|].
    rewrite insertSorted_filter. cbn [List.filter]. rewrite IH. reflexivity.
Qed.

Lemma sumIncomes_Permutation (l1 l2 : list Expense.t) :
  Permutation l1 l2 -> sumIncomes l1 = sumIncomes l2.
Proof.
  unfold sumIncomes. induction 1 as [|x l l' _ IH|x y l|l l' l'' _ IH1 _ IH2];
    cbn [List.filter].
  - reflexivity.
  - destruct (0 <? Expense.amount x); cbn [map foldr]; lia.
  - destruct (0 <? Expense.amount x); destruct (0 <? Expense.amount y);
      cbn [map foldr]; lia.
  - lia.
Qed.

Lemma sumOutlays_Permutation (l1 l2 : list Expense.t) :
  Permutation l1 l2 -> sumOutlays l1 = sumOutlays l2.
Proof.
  unfold sumOutlays. induction 1 as [|x l l' _ IH|x y l|l l' l'' _ IH1 _ IH2];
    cbn [List.filter].
  - reflexivity.
  - destruct (Expense.amount x <? 0); cbn [map foldr]; lia.
  - destruct (Expense.amount x <? 0); destruct (Expense.amount y <? 0);
      cbn [map foldr]; lia.
  - lia.
Qed.

Lemma sums_snoc (l : list Expense.t) (e : Expense.t) :
  sumIncomes (l ++ [e]) =
    sumIncomes l + (if 0 <? Expense.amount e then Expense.amount e else 0) /\
  sumOutlays (l ++ [e]) =
    sumOutlays l + (if Expense.amount e <? 0 then Z.abs (Expense.amount e) else 0) /\
  sumMagnitudes (l ++ [e]) = sumMagnitudes l + Z.abs (Expense.amount e).
Proof.
  unfold sumIncomes, sumOutlays, sumMagnitudes.
  rewrite !List.filter_app, !map_app, !foldr_add_app. cbn [List.filter].
  destruct (0 <? Expense.amount e); destruct (Expense.amount e <? 0); cbn [map foldr];
    repeat split; lia.
Qed.

(** X13. The income and expense totals of the expense report, for
    whole-number amounts whose magnitudes sum to at most
    [Number.MAX_SAFE_INTEGER], the amount being entered included: both
    totals are exact, the sum of the positive amounts and the sum of the
    magnitudes of the negative ones, so never negative and the same for
    the date-sorted list as for the stored order; entering an income of a
    positive amount raises the income total of the reloaded page by
    exactly that amount and leaves the expense total alone, and entering
    an outlay does the converse. *)
Theorem X13_report_totals (getTime : string -> Z) (mode : Mode) (data : NewExpense.t)
    (db : DB) :
  0 < NewExpense.amount data ->
  sumMagnitudes (getAllExpenses db) + NewExpense.amount data <= MAX_SAFE_INTEGER ->
  let before := ExpensesPage_loadExpenses getTime db in
  let after := ExpensesPage_loadExpenses getTime (snd (ExpensesPage_onSubmit mode data db)) in
  let income := sumIncomes (getAllExpenses db) in
  let outlay := sumOutlays (getAllExpenses db) in
  0 <= income /\
  0 <= outlay /\
  totalIncome before = toNumber income /\
  totalExpense before = toNumber outlay /\
  totalIncome (getAllExpenses db) = toNumber income /\
  totalExpense (getAllExpenses db) = toNumber outlay /\
  match mode with
  | add =>
      totalIncome after = toNumber (income + NewExpense.amount data) /\
      totalExpense after = toNumber outlay
  | subtract =>
      totalIncome after = toNumber income /\
      totalExpense after = toNumber (outlay + NewExpense.amount data)
  end.
Proof.
  intros Hpos Hb before after income outlay.
  pose proof (sumIncomes_sumOutlays (getAllExpenses db)) as (Hi & Ho & _ & _).
  assert (Hm : sumMagnitudes (getAllExpenses db) <= MAX_SAFE_INTEGER) by lia.
  assert (Hpb : Permutation before (getAllExpenses db)) by apply sort_Permutation.
  assert (Hpa : Permutation after (getAllExpenses (snd (ExpensesPage_onSubmit mode data db))))
    by apply sort_Permutation.
  assert (Hall : getAllExpenses (snd (ExpensesPage_onSubmit mode data db)) =
                 getAllExpenses db ++
                   [Expense.mk (keygen (expenses db)) (NewExpense.date data)
                      (NewExpense.description data)
                      (signedAmount mode (NewExpense.amount data))]).
  { destruct mode; reflexivity. }
  pose proof (sums_snoc (getAllExpenses db)
                (Expense.mk (keygen (expenses db)) (NewExpense.date data)
                   (NewExpense.description data)
                   (signedAmount mode (NewExpense.amount data)))) as (Hsi & Hso & Hsm).
  rewrite <- Hall in Hsi, Hso, Hsm. cbn [Expense.amount] in Hsi, Hso, Hsm.
  split; [exact Hi|]. split; [exact Ho|].
  rewrite !totalIncome_exact, !totalExpense_exact
    by (rewrite ?(sumMagnitudes_Permutation _ _ Hpb); exact Hm).
  rewrite (sumIncomes_Permutation _ _ Hpb), (sumOutlays_Permutation _ _ Hpb).
  do 4 (split; [reflexivity|]).
  assert (Hma : sumMagnitudes after <= MAX_SAFE_INTEGER).
  { rewrite (sumMagnitudes_Permutation _ _ Hpa), Hsm.
    destruct mode; cbn [signedAmount]; lia. }
  rewrite (totalIncome_exact _ Hma), (totalExpense_exact _ Hma).
  rewrite (sumIncomes_Permutation _ _ Hpa), (sumOutlays_Permutation _ _ Hpa), Hsi, Hso.
  fold income outlay.
  destruct mode; cbn [signedAmount].
  - destruct (Z.ltb_spec 0 (NewExpense.amount data));
      destruct (Z.ltb_spec (NewExpense.amount data) 0); try lia.
    split; f_equal; lia.
  - destruct (Z.ltb_spec 0 (- NewExpense.amount data));
      destruct (Z.ltb_spec (- NewExpense.amount data) 0); try lia.
    split; f_equal; lia.
Qed.

Lemma X13_report_totals_witness :
  totalIncome (ExpensesPage_loadExpenses (fun _ => 0) sampleDB) = toNumber 0 /\
  totalExpense (ExpensesPage_loadExpenses (fun _ => 0) sampleDB) = toNumber 300 /\
  totalIncome
    (ExpensesPage_loadExpenses (fun _ => 0)
       (snd (ExpensesPage_onSubmit subtract (NewExpense.mk "2024-01-09" "Rent" 900) sampleDB))) =
    toNumber 0 /\
  totalExpense
    (ExpensesPage_loadExpenses (fun _ => 0)
       (snd (ExpensesPage_onSubmit subtract (NewExpense.mk "2024-01-09" "Rent" 900) sampleDB))) =
    toNumber (300 + 900).
Proof.
  destruct (X13_report_totals (fun _ => 0) subtract (NewExpense.mk "2024-01-09" "Rent" 900)
              sampleDB) as (_ & _ & H1 & H2 & _ & _ & H3 & H4).
  - reflexivity.
  - vm_compute. discriminate.
  - split; [exact H1|]. split; [exact H2|]. split; [exact H3 | exact H4].
Defined.

Lemma insertReceipt_last (cmp : Receipt.t -> Receipt.t -> Z) (x : Receipt.t)
    (l : list Receipt.t) :
  Forall (fun y => 0 < cmp x y) l -> insertReceipt cmp x l = l ++ [x].
Proof.
  induction 1 as [|y l Hy _ IH]; cbn [insertReceipt app]; [reflexivity|].
  replace (cmp x y <=? 0) with false by (symmetry; apply Z.leb_gt; exact Hy).
  rewrite IH. reflexivity.
Qed.

Lemma sortReceipts_ascending (l : list Receipt.t) :
  StronglySorted Z.lt (map Receipt.id l) ->
  sortReceipts (fun a b => Receipt.id b - Receipt.id a) l = rev l.
Proof.
  induction l as [|x l IH]; intros Hs; [reflexivity|].
  cbn [map] in Hs. apply StronglySorted_inv in Hs as [Hs Hx].
  unfold sortReceipts in *. cbn [foldr rev]. rewrite (IH Hs).
  apply insertReceipt_last. apply Forall_rev.
  rewrite List.Forall_map in Hx.
  eapply List.Forall_impl; [|exact Hx]. cbn beta. intros y Hy. lia.
Qed.

Lemma StronglySorted_gt_snoc (l : list Z) (k : Z) :
  StronglySorted Z.gt l -> Forall (fun y => k < y) l -> StronglySorted Z.gt (l ++ [k]).
Proof.
  induction 1 as [|a l Hs IH Ha]; intros Hk; cbn [app].
  - repeat constructor.
  - inversion Hk as [|? ? Hak Hlk]; subst. constructor; [apply IH; exact Hlk|].
    apply Forall_app. split; [exact Ha|]. repeat constructor. lia.
Qed.

(** X14. The receipt list shows the newest receipt first: in a reachable
    database [loadReceipts] returns the stored receipts in the reverse of
    their storage order, so by descending key. *)
Theorem X14_loadReceipts_newest_first (db : DB) :
  reachable db ->
  ReceiptsListPage_loadReceipts db = rev (getAllReceipts db) /\
  StronglySorted Z.gt (map Receipt.id (ReceiptsListPage_loadReceipts db)).
Proof.
  intros Hr. pose proof (reachable_receiptKeysOrdered db Hr) as (Hs & _ & _).
  assert (He : ReceiptsListPage_loadReceipts db = rev (getAllReceipts db)).
  { apply sortReceipts_ascending. exact Hs. }
  split; [exact He|]. rewrite He, map_rev.
  revert Hs. generalize (map Receipt.id (getAllReceipts db)). intros ks Hs.
  induction Hs as [|k ks Hs IH Hk]; cbn [rev]; [constructor|].
  apply StronglySorted_gt_snoc; [exact IH|]. apply Forall_rev. exact Hk.
Qed.

Lemma X14_loadReceipts_newest_first_witness :
  ReceiptsListPage_loadReceipts sampleDB = rev (getAllReceipts sampleDB) /\
  StronglySorted Z.gt (map Receipt.id (ReceiptsListPage_loadReceipts sampleDB)).
Proof.
  apply (X14_loadReceipts_newest_first sampleDB). eexists. reflexivity.
Defined.

Lemma prefix_iff (t s : string) :
  String.prefix t s = true <-> exists after, s = t +:+ after.
Proof.
  revert s. induction t as [|a t IH]; intros s.
  - split; [intros _; exists s; reflexivity | intros _; destruct s; reflexivity].
  - destruct s as [|b s]; cbn [String.prefix].
    + split; [discriminate | intros [after H]; discriminate H].
    + destruct (ascii_dec a b) as [<-|Hne].
      * rewrite IH. split; intros [after H]; exists after.
        -- change (String a s = String a (t +:+ after)). rewrite H. reflexivity.
        -- change (String a s = String a (t +:+ after)) in H. injection H as H. exact H.
      * split; [discriminate|]. intros [after H].
        change (String b s = String a (t +:+ after)) in H. injection H as H _.
        congruence.
Qed.

Lemma includes_iff (s t : string) :
  includes s t = true <-> occursIn t s.
Proof.
  unfold occursIn. induction s as [|c s IH]; cbn [includes].
  - rewrite orb_false_r, prefix_iff. split.
    + intros [after H]. exists "", after. exact H.
    + intros [before [after H]]. destruct before as [|b before].
      * exists after. exact H.
      * change ("" = String b (before +:+ t +:+ after)) in H. discriminate H.
  - rewrite orb_true_iff, prefix_iff, IH. split.
    + intros [[after H]|[before [after H]]].
      * exists "", after. exact H.
      * exists (String c before), after.
        change (String c s = String c (before +:+ t +:+ after)). rewrite H. reflexivity.
    + intros [before [after H]]. destruct before as [|b before].
      * left. exists after. exact H.
      * right. exists before, after.
        change (String c s = String b (before +:+ t +:+ after)) in H.
        injection H as _ H. exact H.
Qed.

Lemma includes_self (s : string) : includes s s = true.
Proof.
  apply includes_iff. exists "", "". symmetry. apply append_empty_r.
Qed.

Lemma includes_empty (s : string) : includes s "" = true.
Proof. apply includes_iff. exists "", s. reflexivity. Qed.

(** X15. Searching the receipt list: a receipt is shown exactly when it
    is in the list and the lower-cased search term occurs in its
    lower-cased name, receipt number or block number; the receipts shown
    keep their order; searching for a receipt's own name, number or block
    shows it; and with an empty search term every receipt is shown and
    the footer total is the total of all of them. *)
Theorem X15_receipt_search (toLowerCase : string -> string)
    (receipts : list Receipt.t) (searchTerm : string) :
  toLowerCase "" = "" ->
  (forall r : Receipt.t,
     In r (ReceiptsListPage_filteredReceipts toLowerCase receipts searchTerm) <->
     In r receipts /\
     (occursIn (toLowerCase searchTerm) (toLowerCase (Receipt.name r)) \/
      occursIn (toLowerCase searchTerm) (toLowerCase (Receipt.receiptNumber r)) \/
      occursIn (toLowerCase searchTerm) (toLowerCase (Receipt.blockNumber r)))) /\
  sublist (ReceiptsListPage_filteredReceipts toLowerCase receipts searchTerm) receipts /\
  (forall r : Receipt.t,
     In r receipts ->
     In r (ReceiptsListPage_filteredReceipts toLowerCase receipts (Receipt.name r)) /\
     In r (ReceiptsListPage_filteredReceipts toLowerCase receipts (Receipt.receiptNumber r)) /\
     In r (ReceiptsListPage_filteredReceipts toLowerCase receipts (Receipt.blockNumber r))) /\
  ReceiptsListPage_filteredReceipts toLowerCase receipts "" = receipts /\
  ReceiptsListPage_totalAmount (ReceiptsListPage_filteredReceipts toLowerCase receipts "") =
    ReceiptsListPage_totalAmount receipts.
Proof.
  intros Hempty.
  assert (Hin : forall (term : string) (r : Receipt.t),
            In r (ReceiptsListPage_filteredReceipts toLowerCase receipts term) <->
            In r receipts /\ matchesSearch toLowerCase term r = true).
  { intros term r. unfold ReceiptsListPage_filteredReceipts. apply filter_In. }
  assert (Hall : ReceiptsListPage_filteredReceipts toLowerCase receipts "" = receipts).
  { unfold ReceiptsListPage_filteredReceipts.
    induction receipts as [|r l IH]; [reflexivity|].
    cbn [List.filter]. unfold matchesSearch at 1. rewrite Hempty, includes_empty.
    cbn [orb]. f_equal. apply IH.
    intros term r'. apply filter_In. }
  split; [|split; [|split; [|split]]].
  - intros r. rewrite Hin. unfold matchesSearch.
    rewrite !orb_true_iff, !includes_iff. tauto.
  - unfold ReceiptsListPage_filteredReceipts. clear.
    induction receipts as [|r l IH]; cbn [List.filter]; [constructor|].
    destruct (matchesSearch toLowerCase searchTerm r); constructor; exact IH.
  - intros r Hr. rewrite !Hin. unfold matchesSearch.
    repeat split; try exact Hr; rewrite includes_self; cbn [orb];
      rewrite ?orb_true_r; reflexivity.
  - exact Hall.
  - rewrite Hall. reflexivity.
Qed.

Lemma X15_receipt_search_witness :
  ReceiptsListPage_filteredReceipts asciiLowerCase (getAllReceipts sampleDB) "" =
    getAllReceipts sampleDB.
Proof.
  destruct (X15_receipt_search asciiLowerCase (getAllReceipts sampleDB) "nsm")
    as (_ & _ & _ & H & _).
  - reflexivity.
  - exact H.
Defined.

Lemma filteredReceipts_empty (toLowerCase : string -> string) (l : list Receipt.t) :
  toLowerCase "" = "" ->
  ReceiptsListPage_filteredReceipts toLowerCase l "" = l.
Proof.
  intros Hempty. unfold ReceiptsListPage_filteredReceipts.
  induction l as [|r l IH]; [reflexivity|].
  cbn [List.filter]. unfold matchesSearch at 1. rewrite Hempty, includes_empty.
  cbn [orb]. f_equal. exact IH.
Qed.

Lemma receipts_total_exact (l : list Receipt.t) :
  sumReceiptMagnitudes l <= MAX_SAFE_INTEGER ->
  fold_left (fun sum r => numberAdd sum (toNumber (Receipt.amount r))) l (toNumber 0) =
    toNumber (sumReceiptAmounts l).
Proof.
  intros Hb. rewrite (fold_numberAdd_exact Receipt.amount); [reflexivity|exact Hb].
Qed.

Lemma foldr_add_rev (l : list Z) : foldr Z.add 0 (rev l) = foldr Z.add 0 l.
Proof.
  induction l as [|a l IH]; [reflexivity|].
  cbn [rev foldr]. rewrite foldr_app, foldr_add_acc. cbn [foldr]. lia.
Qed.

(** X16. The dashboard follows the receipts. A successful creation raises
    the number of receipts by one and the total by one addition of the
    amount entered, which is exact when the magnitudes of the stored
    whole-number amounts, the new one included, sum to at most
    [Number.MAX_SAFE_INTEGER]. Within that range, in a reachable database,
    the dashboard's total is exactly the sum of the stored amounts, and
    the footer total of the unfiltered receipt list, which adds them
    latest first, is the same number. *)
Theorem X16_dashboard_totals (toLowerCase : string -> string)
    (data : ReceiptFormData.t) (db : DB) :
  toLowerCase "" = "" ->
  reachable db ->
  match createReceipt data db with
  | inr (_, db') =>
      length (getAllReceipts db') = S (length (getAllReceipts db)) /\
      DashboardPage_totalAmount (getAllReceipts db') =
        numberAdd (DashboardPage_totalAmount (getAllReceipts db))
          (toNumber (ReceiptFormData.amount data)) /\
      (sumReceiptMagnitudes (getAllReceipts db') <= MAX_SAFE_INTEGER ->
       DashboardPage_totalAmount (getAllReceipts db') =
         toNumber (sumReceiptAmounts (getAllReceipts db) + ReceiptFormData.amount data))
  | inl _ => True
  end /\
  (sumReceiptMagnitudes (getAllReceipts db) <= MAX_SAFE_INTEGER ->
   DashboardPage_totalAmount (getAllReceipts db) =
     toNumber (sumReceiptAmounts (getAllReceipts db)) /\
   ReceiptsListPage_totalAmount
     (ReceiptsListPage_filteredReceipts toLowerCase (ReceiptsListPage_loadReceipts db) "") =
     DashboardPage_totalAmount (getAllReceipts db)).
Proof.
  intros Hempty Hr. split.
  - unfold createReceipt, NewReceiptPage_onSubmit, addReceipt.
    destruct (indexContains _ _); [exact I|].
    unfold getAllReceipts. cbn [receipts records]. rewrite length_app. cbn [length].
    split; [lia|]. split.
    + unfold DashboardPage_totalAmount. rewrite fold_left_app. reflexivity.
    + intros Hb. unfold DashboardPage_totalAmount. rewrite (receipts_total_exact _ Hb).
      f_equal. unfold sumReceiptAmounts. rewrite map_app, foldr_app, foldr_add_acc.
      cbn [map foldr withId Receipt.amount NewReceipt.amount]. lia.
  - intros Hb. pose proof (reachable_receiptKeysOrdered db Hr) as (Hs & _ & _).
    rewrite (filteredReceipts_empty _ _ Hempty).
    unfold ReceiptsListPage_loadReceipts. rewrite (sortReceipts_ascending _ Hs).
    unfold ReceiptsListPage_totalAmount, DashboardPage_totalAmount.
    rewrite (receipts_total_exact _ Hb).
    split; [reflexivity|].
    rewrite receipts_total_exact.
    + f_equal. unfold sumReceiptAmounts. rewrite map_rev. apply foldr_add_rev.
    + unfold sumReceiptMagnitudes in *. rewrite map_rev, foldr_add_rev. exact Hb.
Qed.

Lemma X16_dashboard_totals_witness :
  (length (getAllReceipts (createAll [scenarioData] sampleDB)) =
     S (length (getAllReceipts sampleDB)) /\
   DashboardPage_totalAmount (getAllReceipts (createAll [scenarioData] sampleDB)) =
     toNumber (1200 + 500)) /\
  DashboardPage_totalAmount (getAllReceipts sampleDB) = toNumber 1200 /\
  ReceiptsListPage_totalAmount
    (ReceiptsListPage_filteredReceipts asciiLowerCase (ReceiptsListPage_loadReceipts sampleDB) "") =
    DashboardPage_totalAmount (getAllReceipts sampleDB).
Proof.
  destruct (X16_dashboard_totals asciiLowerCase scenarioData sampleDB) as (H1 & H2).
  - reflexivity.
  - eexists. reflexivity.
  - destruct H2 as (H3 & H4); [vm_compute; discriminate|].
    change (createReceipt scenarioData sampleDB)
      with (@inr DOMException _ (3, createAll [scenarioData] sampleDB)) in H1.
    destruct H1 as (H5 & _ & H6).
    split; [split; [exact H5 | apply H6; vm_compute; discriminate]|].
    split; [exact H3 | exact H4].
Defined.

(** ** The application as a whole *)

Lemma numbered_same_receipts (db db' : DB) :
  receipts db' = receipts db -> numbered db -> numbered db'.
Proof. unfold numbered, getAllReceipts. intros ->. exact id. Qed.

Lemma createReceipt_frame (data : ReceiptFormData.t) (db db' : DB) (key : Z) :
  createReceipt data db = inr (key, db') ->
  auth db' = auth db /\ settings db' = settings db /\ expenses db' = expenses db.
Proof.
  unfold createReceipt, NewReceiptPage_onSubmit, addReceipt.
  destruct (indexContains _ _); [discriminate|].
  intros [= _ <-]. repeat split; reflexivity.
Qed.

Lemma saveSettings_singleton (arg : SettingsArg.t) (db : DB) (s : Settings.t) :
  settings db = {[ 1 := s ]} \/ settings db = ∅ ->
  exists s',
    SettingsProvider_loadSettings (snd (saveSettings arg db)) = (s', snd (saveSettings arg db)) /\
    settings (snd (saveSettings arg db)) = {[ 1 := s' ]} /\
    Settings.id s' = 1.
Proof.
  intros Hs. eexists. split; [|split].
  - apply loadSettings_stored. apply getSettings_save.
  - unfold saveSettings. cbn [snd settings Settings.id].
    destruct Hs as [->| ->]; [apply insert_singleton_eq | apply insert_empty].
  - reflexivity.
Qed.

Lemma firstStart_invariant (digest : list byte -> list byte) :
  appInvariant (firstStart digest).
Proof.
  unfold firstStart, loadPage. cbn [authState appDB].
  rewrite checkAuth_db. change (getAuthCredentials "admin" emptyDB) with (@None Credential.t).
  destruct (saveSettings_singleton defaultSettings
              (snd (saveAuthCredentials "admin" (sha256 digest "google") emptyDB))
              storedDefaultSettings) as (s & Hl & Hs & Hid).
  { right. reflexivity. }
  unfold SettingsProvider_loadSettings in *.
  change (getSettings (snd (saveAuthCredentials "admin" (sha256 digest "google") emptyDB)))
    with (@None Settings.t) in *.
  cbn [fst snd] in *. injection Hl as Hl.
  split; [|split].
  - split; reflexivity.
  - eexists. cbn. apply insert_empty.
  - exists s. cbn [appDB settingsCache]. split; [exact Hs|]. split; [exact Hid|].
    rewrite <- Hl. reflexivity.
Qed.

Lemma handle_invariant (digest : list byte -> list byte) (app : App) (ev : Event) :
  appInvariant app -> appInvariant (handle digest app ev).
Proof.
  intros Hinv. pose proof Hinv as (Hn & [hash Ha] & (s & Hs & Hid & Hc)).
  assert (Hcred : getAuthCredentials "admin" (appDB app) = Some (Credential.mk "admin" hash)).
  { unfold getAuthCredentials. rewrite Ha. apply lookup_singleton_eq. }
  assert (Hget : getSettings (appDB app) = Some s).
  { unfold getSettings. rewrite Hs. apply lookup_singleton_eq. }
  destruct ev as [|u p| |data|data|mode data|data sigPad|up]; cbn [handle];
    unfold protected; try (destruct (ProtectedRoute (authState app)); [|exact Hinv]).
  - unfold loadPage. rewrite checkAuth_db, Hcred, (loadSettings_stored _ _ Hget).
    cbn [fst snd]. split; [exact Hn|]. split; [eauto|]. exists s. auto.
  - split; [exact Hn|]. split; [eauto|]. exists s. auto.
  - split; [exact Hn|]. split; [eauto|]. exists s. auto.
  - rewrite Hc.
    pose proof (changePassword_cases digest data (appDB app)) as H. rewrite Hcred in H.
    destruct (String.eqb _ _); rewrite H; cbn [snd].
    2: { split; [exact Hn|]. split; [eauto|]. exists s. auto. }
    split; [exact Hn|]. split.
    + eexists. unfold saveAuthCredentials. cbn [snd appDB auth Credential.username].
      rewrite Ha. apply insert_singleton_eq.
    + exists s. auto.
  - destruct (createReceipt_numbered data (appDB app) Hn) as (db' & Hcr & _ & Hn').
    rewrite Hcr. destruct (createReceipt_frame _ _ _ _ Hcr) as (Ha' & Hs' & _).
    unfold appInvariant. cbn [appDB settingsCache]. split; [exact Hn'|]. split.
    + exists hash. rewrite Ha'. exact Ha.
    + exists s. rewrite Hs'. auto.
  - unfold appInvariant. cbn [appDB settingsCache]. split; [|split].
    + eapply numbered_same_receipts; [|exact Hn]. reflexivity.
    + exists hash. exact Ha.
    + exists s. auto.
  - rewrite Hc. unfold SettingsPage_onSubmit.
    match goal with
    | |- context [saveSettings ?arg (appDB app)] =>
        destruct (saveSettings_singleton arg (appDB app) s (or_introl Hs)) as (s' & Hl & Hs' & Hid')
    end.
    rewrite Hl. unfold appInvariant. cbn [fst snd appDB settingsCache]. split; [|split].
    + eapply numbered_same_receipts; [|exact Hn]. reflexivity.
    + exists hash. exact Ha.
    + exists s'. auto.
  - rewrite Hc. unfold SettingsPage_handleFileUpload.
    match goal with
    | |- context [saveSettings ?arg (appDB app)] =>
        destruct (saveSettings_singleton arg (appDB app) s (or_introl Hs)) as (s' & Hl & Hs' & Hid')
    end.
    rewrite Hl. unfold appInvariant. cbn [fst snd appDB settingsCache]. split; [|split].
    + eapply numbered_same_receipts; [|exact Hn]. reflexivity.
    + exists hash. exact Ha.
    + exists s'. auto.
Qed.

Lemma appReachable_invariant (digest : list byte -> list byte) (app : App) :
  appReachable digest app -> appInvariant app.
Proof.
  intros [events ->].
  assert (H : forall start, appInvariant start ->
                appInvariant (fold_left (handle digest) events start)).
  { induction events as [|ev events IH]; intros start Hs; [exact Hs|].
    cbn [fold_left]. apply IH. apply handle_invariant. exact Hs. }
  apply H. apply firstStart_invariant.
Qed.

Lemma firstStart_reachable (digest : list byte -> list byte) :
  appReachable digest (firstStart digest).
Proof. exists []. reflexivity. Qed.

(** X17. Exactly one credential and one settings record: in every state
    the application can reach after its first start the credential store
    holds one record, for "admin", the settings store holds one record,
    under key 1, and the cached settings are that record; so the
    change-password form always reports something, the update or the
    wrong current password. *)
Theorem X17_app_singletons (digest : list byte -> list byte) (app : App)
    (data : PasswordFormData) :
  appReachable digest app ->
  (exists hash, auth (appDB app) = {[ "admin" := Credential.mk "admin" hash ]}) /\
  (exists s,
     settings (appDB app) = {[ 1 := s ]} /\
     getSettings (appDB app) = Some s /\
     settingsCache app = Some s) /\
  (fst (ChangePasswordForm_onSubmit digest data (appDB app)) = Some WrongCurrentPassword \/
   passwordUpdated (fst (ChangePasswordForm_onSubmit digest data (appDB app))) = true).
Proof.
  intros Hr. destruct (appReachable_invariant digest app Hr) as (_ & [hash Ha] & (s & Hs & _ & Hc)).
  split; [eauto|]. split.
  - exists s. split; [exact Hs|]. split; [|exact Hc].
    unfold getSettings. rewrite Hs. apply lookup_singleton_eq.
  - pose proof (changePassword_cases digest data (appDB app)) as H.
    unfold getAuthCredentials in H. rewrite Ha, lookup_singleton_eq in H.
    destruct (String.eqb _ _); rewrite H; [right | left]; reflexivity.
Qed.

Lemma X17_app_singletons_witness :
  fst (ChangePasswordForm_onSubmit plainDigest
         (mkPasswordFormData "wrong" "secret1" "secret1")
         (appDB (firstStart plainDigest))) = Some WrongCurrentPassword \/
  passwordUpdated
    (fst (ChangePasswordForm_onSubmit plainDigest
            (mkPasswordFormData "wrong" "secret1" "secret1")
            (appDB (firstStart plainDigest)))) = true.
Proof.
  destruct (X17_app_singletons plainDigest (firstStart plainDigest)
              (mkPasswordFormData "wrong" "secret1" "secret1")) as (_ & _ & H).
  - apply firstStart_reachable.
  - exact H.
Defined.

(** X18. Used by one person, the application never runs into a duplicate
    receipt number: in every state it can reach after its first start the
    stored receipts carry the numbers of the counts 0, 1, 2, ... in
    order, and creating a receipt succeeds, with the number of stored
    receipts plus one as key. *)
Theorem X18_app_receipts_numbered (digest : list byte -> list byte) (app : App)
    (data : ReceiptFormData.t) :
  appReachable digest app ->
  let count := length (getAllReceipts (appDB app)) in
  map Receipt.receiptNumber (getAllReceipts (appDB app)) =
    map NewReceiptPage_receiptNumber (seq 0 count) /\
  exists db',
    createReceipt data (appDB app) = inr (Z.of_nat count + 1, db') /\
    getAllReceipts db' =
      getAllReceipts (appDB app) ++ [receiptOf (Z.of_nat count + 1) count data].
Proof.
  intros Hr count. subst count.
  destruct (appReachable_invariant digest app Hr) as (Hn & _ & _).
  split; [exact (proj2 Hn)|].
  destruct (createReceipt_numbered data (appDB app) Hn) as (db' & Hc & Hall & _).
  exists db'. split; assumption.
Qed.

Lemma X18_app_receipts_numbered_witness :
  map Receipt.receiptNumber (getAllReceipts (appDB (firstStart plainDigest))) =
    map NewReceiptPage_receiptNumber
      (seq 0 (length (getAllReceipts (appDB (firstStart plainDigest))))) /\
  exists db',
    createReceipt scenarioData (appDB (firstStart plainDigest)) =
      inr (Z.of_nat (length (getAllReceipts (appDB (firstStart plainDigest)))) + 1, db') /\
    getAllReceipts db' =
      getAllReceipts (appDB (firstStart plainDigest)) ++
        [receiptOf (Z.of_nat (length (getAllReceipts (appDB (firstStart plainDigest)))) + 1)
           (length (getAllReceipts (appDB (firstStart plainDigest)))) scenarioData].
Proof.
  apply (X18_app_receipts_numbered plainDigest (firstStart plainDigest) scenarioData).
  apply firstStart_reachable.
Defined.

Lemma login_result_any_state (digest : list byte -> list byte) (user pass : string)
    (st st' : AuthState) (db : DB) :
  fst (AuthProvider_login digest user pass st db) =
  fst (AuthProvider_login digest user pass st' db).
Proof.
  unfold AuthProvider_login.
  destruct (String.eqb user "admin"); [|reflexivity].
  destruct (getAuthCredentials "admin" db); [|reflexivity].
  destruct (String.eqb _ _); reflexivity.
Qed.

Lemma handle_logged_out (digest : list byte -> list byte) (app : App) (ev : Event) :
  appInvariant app ->
  isAuthenticated (authState app) = false ->
  sessionStorage (authState app) !! "isAuthenticated" <> Some "true" ->
  (forall username password,
     ev = EvLogin username password ->
     fst (AuthProvider_login digest username password noSession (appDB app)) = false) ->
  appDB (handle digest app ev) = appDB app /\
  isAuthenticated (authState (handle digest app ev)) = false /\
  sessionStorage (authState (handle digest app ev)) !! "isAuthenticated" <> Some "true".
Proof.
  intros (_ & [hash Ha] & (s & Hs & _ & _)) Hf Hss Hlogin.
  destruct ev as [|u p| |data|data|mode data|data sigPad|up]; cbn [handle];
    unfold protected, ProtectedRoute; rewrite ?Hf; cbn [negb]; auto.
  - unfold loadPage. cbn [appDB authState].
    rewrite checkAuth_db, checkAuth_state.
    unfold getAuthCredentials. rewrite Ha, lookup_singleton_eq.
    rewrite (loadSettings_stored s).
    2: { unfold getSettings. rewrite Hs. apply lookup_singleton_eq. }
    cbn [snd reloadAuth sessionStorage].
    destruct (decide (sessionStorage (authState app) !! "isAuthenticated" = Some "true"));
      [contradiction|].
    cbn [isAuthenticated sessionStorage]. auto.
  - cbn [appDB authState]. unfold LoginPage_handleLogin.
    specialize (Hlogin u p eq_refl).
    rewrite (login_result_any_state digest u p (authState app) noSession), Hlogin.
    cbn [loginState]. rewrite login_state.
    rewrite (login_result_any_state digest u p (authState app) noSession), Hlogin.
    auto.
  - cbn [appDB authState AuthProvider_logout isAuthenticated sessionStorage].
    rewrite lookup_delete_eq. repeat split. discriminate.
Qed.

(** X19. Without the password nothing is changed: from a state the
    application can reach, in a session that is not authenticated,
    whatever sequence of reloads, logouts, failed logins and attempts to
    use the protected pages follows leaves the database exactly as it
    was and the session unauthenticated. *)
Theorem X19_logged_out_changes_nothing (digest : list byte -> list byte) (app : App)
    (events : list Event) :
  appReachable digest app ->
  isAuthenticated (authState app) = false ->
  sessionStorage (authState app) !! "isAuthenticated" <> Some "true" ->
  noLoginSucceeds digest (appDB app) events ->
  appDB (fold_left (handle digest) events app) = appDB app /\
  ProtectedRoute (authState (fold_left (handle digest) events app)) = Navigate "/login".
Proof.
  intros Hr. apply appReachable_invariant in Hr. revert app Hr.
  induction events as [|ev events IH]; intros app Hinv Hf Hss Hno; cbn [fold_left].
  - split; [reflexivity|]. unfold ProtectedRoute. rewrite Hf. reflexivity.
  - destruct (handle_logged_out digest app ev Hinv Hf Hss) as (Hdb & Hf' & Hss').
    { intros u p ->. apply Hno. left. reflexivity. }
    destruct (IH (handle digest app ev)) as [Hdb' Hp].
    + apply handle_invariant. exact Hinv.
    + exact Hf'.
    + exact Hss'.
    + intros u p Hin. rewrite Hdb. apply Hno. right. exact Hin.
    + split; [rewrite Hdb', Hdb; reflexivity | exact Hp].
Qed.

Lemma X19_logged_out_changes_nothing_witness :
  appDB
    (fold_left (handle plainDigest)
       [EvCreateReceipt scenarioData; EvLogin "admin" "letmein"; EvReload;
        EvChangePassword (mkPasswordFormData "google" "secret1" "secret1")]
       (firstStart plainDigest)) =
    appDB (firstStart plainDigest) /\
  ProtectedRoute
    (authState
       (fold_left (handle plainDigest)
          [EvCreateReceipt scenarioData; EvLogin "admin" "letmein"; EvReload;
           EvChangePassword (mkPasswordFormData "google" "secret1" "secret1")]
          (firstStart plainDigest))) = Navigate "/login".
Proof.
  apply (X19_logged_out_changes_nothing plainDigest (firstStart plainDigest)).
  - apply firstStart_reachable.
  - reflexivity.
  - vm_compute. discriminate.
  - intros u p [H|[H|[H|[H|[]]]]]; try discriminate H.
    injection H as <- <-. vm_compute. reflexivity.
Defined.

(** ** Theme and database opening *)

(** X20. The chosen theme survives a reload: after [setTheme] a fresh
    page load ends with that theme again; the default theme gives the
    empty class name and every other theme its own non-empty one; and
    without a saved theme the page starts with the default. *)
Theorem X20_theme_round_trip (newTheme other : Theme.t) (st : ThemeState) :
  let chosen := ThemeProvider_setTheme newTheme st in
  ThemeProvider_mount (ThemeProvider_initial (localStorage chosen)) = chosen /\
  (ThemeProvider_className chosen = "" <-> newTheme = Theme.default) /\
  (ThemeProvider_className (ThemeProvider_setTheme other st) = ThemeProvider_className chosen ->
   other = newTheme) /\
  (localStorage st !! "app-theme" = None ->
   theme (ThemeProvider_mount (ThemeProvider_initial (localStorage st))) = "default").
Proof.
  intros chosen. subst chosen. split; [|split; [|split]].
  - unfold ThemeProvider_mount, ThemeProvider_initial, ThemeProvider_setTheme.
    cbn [localStorage]. rewrite lookup_insert_eq.
    destruct newTheme; reflexivity.
  - destruct newTheme; cbn; split; intros H; try reflexivity; discriminate H.
  - destruct newTheme, other; cbn; intros H; try reflexivity; discriminate H.
  - intros Hn. unfold ThemeProvider_mount, ThemeProvider_initial. cbn [localStorage].
    rewrite Hn. reflexivity.
Qed.

(** X21. Opening the database: [upgrade] creates exactly the stores that
    are missing and leaves an existing store with all its records, so
    running it twice is running it once; opening on a device without the
    database gives the empty database; and a database that was opened
    before is opened again as it is, without an upgrade. *)
Theorem X21_upgrade_keeps_stores (raw : RawDB) (db : DB) :
  upgrade (upgrade raw) = upgrade raw /\
  (forall store, storeReceipts raw = Some store -> storeReceipts (upgrade raw) = Some store) /\
  (forall store, storeExpenses raw = Some store -> storeExpenses (upgrade raw) = Some store) /\
  (forall store, storeSettings raw = Some store -> storeSettings (upgrade raw) = Some store) /\
  (forall store, storeAuth raw = Some store -> storeAuth (upgrade raw) = Some store) /\
  (is_Some (storeReceipts (upgrade raw)) /\ is_Some (storeExpenses (upgrade raw)) /\
   is_Some (storeSettings (upgrade raw)) /\ is_Some (storeAuth (upgrade raw))) /\
  (exists opened, openDB noDatabase = inr opened /\ connected opened = Some emptyDB) /\
  openDB (persisted db) = inr (persisted db) /\
  connected (persisted db) = Some db.
Proof.
  split; [|split; [|split; [|split; [|split; [|split; [|split; [|split]]]]]]].
  - destruct raw as [v [r|] [e|] [s|] [a|]]; reflexivity.
  - intros store H. unfold upgrade. cbn. rewrite H. reflexivity.
  - intros store H. unfold upgrade. cbn. rewrite H. reflexivity.
  - intros store H. unfold upgrade. cbn. rewrite H. reflexivity.
  - intros store H. unfold upgrade. cbn. rewrite H. reflexivity.
  - destruct raw as [v [r|] [e|] [s|] [a|]]; cbn; repeat split; eauto.
  - eexists. split; reflexivity.
  - reflexivity.
  - destruct db as [r e s a]. reflexivity.
Qed.

(** X22. [getDB] opens the database once: after the first call the
    module holds the promise, and every later call returns that same
    promise and leaves the database alone, whatever has become of the
    database in between; so a failed opening is never tried again. *)
Theorem X22_getDB_opens_once (dbPromise : option Promise) (raw later : RawDB) :
  let first := getDB dbPromise raw in
  let second := getDB (snd (fst first)) later in
  snd (fst first) = Some (fst (fst first)) /\
  fst (fst second) = fst (fst first) /\
  snd (fst second) = snd (fst first) /\
  snd second = later /\
  (forall e, dbPromise = None -> openDB raw = inl e ->
     fst (fst second) = Rejected e /\ snd first = raw).
Proof.
  intros first second. subst second first. unfold getDB.
  destruct dbPromise as [p|].
  - cbn. repeat (split; [reflexivity|]). intros err H. discriminate H.
  - destruct (openDB raw) as [failure|raw'] eqn:Ho; cbn; repeat (split; [reflexivity|]).
    + intros err _ _. destruct failure, err. split; reflexivity.
    + intros err _ H. discriminate H.
Qed.

(** ** Signature, overwriting and independent stores *)

(** X23. The signature on a receipt follows the settings form: once the
    form is saved over an existing record, a receipt shows the typed text
    just entered when the type is typed; when it is drawn, the drawing on
    the pad, or the drawing kept from before when the pad is absent or
    empty; and when it is uploaded, the image uploaded before. Without
    cached settings no signature is shown. *)
Theorem X23_signature_on_receipt (data : SettingsFormData)
    (sigPad : option SignatureCanvas) (s : Settings.t) (db : DB) :
  ReceiptTemplate_signatureContent
    (Some (fst (SettingsPage_onSubmit data sigPad (Some s) db))) =
    Some
      match form_signatureType data with
      | typed => SignatureText (form_typedSignature data)
      | drawn =>
          SignatureImage
            match sigPad with
            | Some pad => if isEmpty pad then Settings.drawnSignature s else toDataURL pad
            | None => Settings.drawnSignature s
            end
      | uploaded => SignatureImage (Settings.uploadedSignature s)
      end /\
  ReceiptTemplate_signatureContent None = None.
Proof.
  split; [|reflexivity].
  unfold SettingsPage_onSubmit. cbn [fmap option_fmap option_map].
  rewrite !orEmpty_Some, (loadSettings_stored _ _ (getSettings_save _ _)).
  cbn [fst]. unfold ReceiptTemplate_signatureContent.
  cbn [Settings.signatureType Settings.typedSignature Settings.drawnSignature
       Settings.uploadedSignature SettingsArg.signatureType SettingsArg.typedSignature
       SettingsArg.drawnSignature SettingsArg.uploadedSignature].
  destruct (form_signatureType data); [reflexivity| |reflexivity].
  destruct sigPad as [pad|]; [destruct (isEmpty pad)|]; reflexivity.
Qed.

(** X24. Settings and credentials keep no history: saving settings
    twice leaves the database as saving the second alone does, and
    [loadSettings] then returns the second; saving a credential twice for
    one user likewise leaves only the second hash. *)
Theorem X24_last_write_wins (a b : SettingsArg.t) (username hash1 hash2 : string) (db : DB) :
  snd (saveSettings b (snd (saveSettings a db))) = snd (saveSettings b db) /\
  fst (SettingsProvider_loadSettings (snd (saveSettings b (snd (saveSettings a db))))) =
    Settings.mk 1 (SettingsArg.adminName b) (SettingsArg.blockNumber b)
      (SettingsArg.signatureType b) (SettingsArg.typedSignature b)
      (SettingsArg.drawnSignature b) (SettingsArg.uploadedSignature b) /\
  snd (saveAuthCredentials username hash2 (snd (saveAuthCredentials username hash1 db))) =
    snd (saveAuthCredentials username hash2 db).
Proof.
  split; [|split].
  - unfold saveSettings. cbn [snd receipts expenses settings auth Settings.id].
    rewrite insert_insert_eq. reflexivity.
  - rewrite (loadSettings_stored _ _ (getSettings_save _ _)). reflexivity.
  - unfold saveAuthCredentials. cbn [snd receipts expenses settings auth Credential.username].
    rewrite insert_insert_eq. reflexivity.
Qed.

(** X25. The four stores are independent: two writes that go to
    different stores give the same database in either order. *)
Theorem X25_writes_commute (op1 op2 : Op) (db : DB) :
  storeOf op1 <> storeOf op2 ->
  step (step db op1) op2 = step (step db op2) op1.
Proof.
  intros Hne.
  destruct op1 as [u1 h1|r1|e1|s1], op2 as [u2 h2|r2|e2|s2];
    try (exfalso; apply Hne; reflexivity); cbn [step];
    unfold addReceipt, saveAuthCredentials, addExpense, saveSettings;
    cbn [snd receipts expenses settings auth];
    try (destruct (indexContains _ _)); reflexivity.
Qed.

Lemma X25_writes_commute_witness :
  step (step sampleDB (OpAddExpense (NewExpense.mk "2024-01-09" "Rent" 900)))
    (OpAddReceipt (NewReceipt.mk "NSM-0003" "C" "15" 100 "2024-02-01" "2024-02" Cheque)) =
  step (step sampleDB
          (OpAddReceipt (NewReceipt.mk "NSM-0003" "C" "15" 100 "2024-02-01" "2024-02" Cheque)))
    (OpAddExpense (NewExpense.mk "2024-01-09" "Rent" 900)).
Proof.
  apply (X25_writes_commute (OpAddExpense (NewExpense.mk "2024-01-09" "Rent" 900))
           (OpAddReceipt (NewReceipt.mk "NSM-0003" "C" "15" 100 "2024-02-01" "2024-02" Cheque))
           sampleDB).
  discriminate.
Defined.

(** ** Dates *)

Lemma lacks_append (c : ascii) (s1 s2 : string) :
  lacks c (s1 +:+ s2) = lacks c s1 && lacks c s2.
Proof.
  induction s1 as [|a s1 IH]; [reflexivity|].
  change (lacks c (String a (s1 +:+ s2)) = lacks c (String a s1) && lacks c s2).
  cbn [lacks]. rewrite IH, andb_assoc. reflexivity.
Qed.

Lemma lacks_substring (c : ascii) (s : string) (start len : nat) :
  lacks c s = true -> lacks c (substring start len s) = true.
Proof.
  revert start len. induction s as [|a s IH]; intros start len Hs.
  - destruct start, len; reflexivity.
  - cbn [lacks] in Hs. apply andb_true_iff in Hs as [Ha Hs].
    destruct start as [|start]; cbn [substring].
    + destruct len as [|len]; [reflexivity|]. cbn [lacks]. rewrite Ha, (IH 0%nat len Hs).
      reflexivity.
    + apply IH. exact Hs.
Qed.

Lemma lacks_zeros (n : nat) : lacks "T" (String.concat "" (repeat "0" n)) = true.
Proof.
  induction n as [|n IH]; [reflexivity|].
  cbn [repeat]. rewrite concat_cons, lacks_append, IH. reflexivity.
Qed.

Lemma lacks_String_ofNumber (n : nat) : lacks "T" (String_ofNumber n) = true.
Proof.
  unfold String_ofNumber. generalize (Nat.to_uint n). intros d.
  induction d; cbn [NilEmpty.string_of_uint lacks]; try rewrite IHd; reflexivity.
Qed.

Lemma lacks_padStart (width n : nat) :
  lacks "T" (padStart width "0" (String_ofNumber n)) = true.
Proof.
  unfold padStart. destruct (_ || _); [apply lacks_String_ofNumber|].
  rewrite lacks_append, lacks_String_ofNumber, andb_true_r.
  apply lacks_substring. apply lacks_zeros.
Qed.

Lemma splitFirst_append (c : ascii) (s rest : string) :
  lacks c s = true -> splitFirst c (s +:+ String c rest) = s.
Proof.
  induction s as [|a s IH]; intros Hs.
  - change (splitFirst c (String c rest) = ""). cbn [splitFirst].
    rewrite Ascii.eqb_refl. reflexivity.
  - cbn [lacks] in Hs. apply andb_true_iff in Hs as [Ha Hs].
    change (splitFirst c (String a (s +:+ String c rest)) = String a s).
    cbn [splitFirst]. apply negb_true_iff in Ha. rewrite Ha, (IH Hs). reflexivity.
Qed.

(** X26. [formatDate] returns the date part of the ISO string, year,
    month and day joined by "-": what stands before the "T", with no "T"
    in it. *)
Theorem X26_formatDate_date_part (date : Date) :
  formatDate date = isoDate date /\
  lacks "T" (formatDate date) = true /\
  exists time, toISOString date = formatDate date +:+ "T" +:+ time.
Proof.
  assert (Hy : lacks "T" (isoYear (utcYear date)) = true).
  { unfold isoYear. destruct ((0 <=? utcYear date) && (utcYear date <=? 9999)).
    - apply lacks_padStart.
    - rewrite lacks_append, lacks_padStart. destruct (utcYear date <? 0); reflexivity. }
  assert (Hl : lacks "T" (isoDate date) = true).
  { unfold isoDate. rewrite !lacks_append, !lacks_padStart, Hy. reflexivity. }
  assert (He : formatDate date = isoDate date).
  { unfold formatDate, toISOString.
    change ("T" +:+ ?x) with (String "T" x).
    apply splitFirst_append. exact Hl. }
  split; [exact He|]. split; [rewrite He; exact Hl|].
  rewrite He. eexists. unfold toISOString. reflexivity.
Qed.
